(** * E.D.I.T.H. command router and response resolver

    A shallow embedding of [EDITH.py]: the command loop
    [start_edith_cli], its command map [COMMANDS], the response resolver
    [edith_analyze] with the conversational brain [EdithBrain], the
    reminder functions and the opener, followed by the properties of the
    router and the resolver.

    Python objects are modelled as follows.
    - [str] is [string]; [lower], [upper], [strip] act on the ASCII range
      (the input adapters, the command names and all keywords are ASCII).
    - Module-level mutable objects ([reminders], [edith_brain]) are fields
      of one [State] record that every function threads; the state also
      carries the chronological [log] of effects.
    - The outside world (clock, random source, model, browser, operating
      system, HTTP) is a record [World] of oracles.
    - A function that may raise returns an [Outcome]; the state reached at
      the raise is kept, as in Python.
    - A coroutine object is the suspended computation itself: creating it
      has no effect, awaiting it runs it. *)

From Stdlib Require Import String Ascii List Bool Arith ZArith Lia.
From Stdlib Require Import DecimalString.
Import ListNotations.
Local Open Scope list_scope.
Local Open Scope string_scope.

Set Implicit Arguments.

(** ** Python string operations *)

Module PyStr.

Definition nl : string := String (ascii_of_nat 10) EmptyString.

Definition is_upper (c : ascii) : bool :=
  ((65 <=? nat_of_ascii c) && (nat_of_ascii c <=? 90))%nat.

Definition is_lower (c : ascii) : bool :=
  ((97 <=? nat_of_ascii c) && (nat_of_ascii c <=? 122))%nat.

Definition lower_char (c : ascii) : ascii :=
  if is_upper c then ascii_of_nat (nat_of_ascii c + 32) else c.

Definition upper_char (c : ascii) : ascii :=
  if is_lower c then ascii_of_nat (nat_of_ascii c - 32) else c.

Fixpoint map_chars (f : ascii -> ascii) (s : string) : string :=
  match s with
  | EmptyString => EmptyString
  | String c t => String (f c) (map_chars f t)
  end.

(** [s.lower()] and [s.upper()] *)
Definition lower (s : string) : string := map_chars lower_char s.
Definition upper (s : string) : string := map_chars upper_char s.

(** [s.capitalize()] *)
Definition capitalize (s : string) : string :=
  match s with
  | EmptyString => EmptyString
  | String c t => String (upper_char c) (lower t)
  end.

(** The ASCII characters for which [str.isspace] holds: tab, line feed,
    vertical tab, form feed, carriage return, the four separators
    28..31 and the space. *)
Definition is_space (c : ascii) : bool :=
  let n := nat_of_ascii c in
  (((9 <=? n) && (n <=? 13)) || ((28 <=? n) && (n <=? 32)))%nat.

Fixpoint lstrip (s : string) : string :=
  match s with
  | EmptyString => EmptyString
  | String c t => if is_space c then lstrip t else s
  end.

Fixpoint rstrip (s : string) : string :=
  match s with
  | EmptyString => EmptyString
  | String c t =>
      match rstrip t with
      | EmptyString => if is_space c then EmptyString else String c EmptyString
      | t' => String c t'
      end
  end.

(** [s.strip()] *)
Definition strip (s : string) : string := rstrip (lstrip s).

(** [s.startswith(p)] *)
Fixpoint startswith (s p : string) : bool :=
  match p with
  | EmptyString => true
  | String b p' =>
      match s with
      | EmptyString => false
      | String a s' => Ascii.eqb a b && startswith s' p'
      end
  end.

(** [sub in s] *)
Fixpoint contains (s sub : string) : bool :=
  startswith s sub ||
  match s with
  | EmptyString => false
  | String _ t => contains t sub
  end.

Fixpoint drop (n : nat) (s : string) : string :=
  match n, s with
  | O, _ => s
  | S _, EmptyString => EmptyString
  | S k, String _ t => drop k t
  end.

(** [s.split(sep, 1)] for a non-empty separator: the text before the
    leftmost occurrence of [sep] and the text after it, or [s] alone when
    [sep] does not occur. *)
Fixpoint split1 (sep s : string) : list string :=
  if startswith s sep then [EmptyString; drop (String.length sep) s]
  else
    match s with
    | EmptyString => [EmptyString]
    | String c t =>
        match split1 sep t with
        | [] => [String c EmptyString]
        | h :: rest => String c h :: rest
        end
    end.

(** [s.replace(a, b)] for one-character [a] and [b] *)
Definition replace_char (a b : ascii) (s : string) : string :=
  map_chars (fun c => if Ascii.eqb c a then b else c) s.

(** [c * n] *)
Fixpoint repeat_str (c : string) (n : nat) : string :=
  match n with
  | O => EmptyString
  | S k => c ++ repeat_str c k
  end.

(** [str(n)] for a natural number *)
Definition str_of_nat (n : nat) : string :=
  NilZero.string_of_uint (Nat.to_uint n).

(** truth value of a string: [bool(s)] *)
Definition truthy (s : string) : bool :=
  match s with
  | EmptyString => false
  | String _ _ => true
  end.

(** [any(q in s for q in qs)] *)
Definition any_in (qs : list string) (s : string) : bool :=
  existsb (fun q => contains s q) qs.

(** [x in xs] for a list of strings *)
Definition str_in (x : string) (xs : list string) : bool :=
  existsb (String.eqb x) xs.

End PyStr.
Import PyStr.

(** ** Exceptions, the outside world and the program state *)

(** A raised exception: its class name and [str(e)]. Every exception of
    the model is a subclass of [Exception]. *)
Record PyExc := mkExc { exc_type : string; exc_str : string }.

Inductive Outcome (A : Type) : Type :=
| Returned (a : A)
| Raised (e : PyExc).
Arguments Raised {A} e.

(** What [datetime.datetime.now()] is formatted to: [.hour],
    [strftime("%A, %d %B %Y")], [strftime("%I:%M %p")] and
    [strftime("%Y-%m-%d %H:%M")]. *)
Record Clock := {
  hour : nat;
  date_str : string;
  time_str : string;
  minute_stamp : string
}.

(** The loaded tokenizer and model of [EdithBrain]. Token tensors of
    shape [(1, n)] are lists of token ids. *)
Record Tokenizer := {
  eos_token : string;
  encode : string -> Outcome (list Z);
  decode : list Z -> Outcome string
}.

Record CausalLM := {
  generate : list Z -> Outcome (list Z)
}.

Inductive PopenArgs :=
| PopenArgv (argv : list string)
| PopenShell (cmd : string).

(** The course of the [try] block of [get_weather] once the request is
    sent: [requests.get] raises a [RequestException]; something else
    raises; the reply has [cod != 200]; or the report fields are read. *)
Inductive HttpReply :=
| RequestException
| OtherException (e : PyExc)
| CodNot200 (message : option string)
| Report (temp humidity description : string) (city : option string).

Record World := {
  VOICE_ENABLED : bool;
  tts_engine : bool;                         (* tts_engine is not None *)
  platform_system : string;                  (* platform.system() *)
  cuda_is_available : bool;
  now : nat -> Clock;                        (* the n-th reading of the clock *)
  randint_99_100 : nat -> bool;              (* true: 100, false: 99 *)
  choice : nat -> nat;                       (* index drawn by random.choice *)
  AutoTokenizer_from_pretrained : Outcome Tokenizer;
  AutoModelForCausalLM_from_pretrained : Outcome CausalLM;
  webbrowser_open : string -> option PyExc;  (* Some e: the call raises e *)
  subprocess_Popen : PopenArgs -> option PyExc;
  requests_get : string -> HttpReply
}.

Record Reminder := { task : string; timestamp : string }.

Record EdithBrain := {
  device : string;
  tokenizer : option Tokenizer;
  model : option CausalLM;
  chat_history_ids : option (list Z)
}.

(** Effects, in the order they happen. [Invoke], [Analyze] and [Think]
    are ghost marks: the router evaluating a call of [COMMANDS[action]],
    and the bodies of [edith_analyze] and [EdithBrain.think] starting. *)
Inductive Event :=
| Print (text : string)
| Say (text : string)
| Input (prompt : string)
| MicListen
| BrowserOpen (url : string)
| Popen (args : PopenArgs)
| HttpGet (url : string)
| Generate (bot_input_ids : list Z)
| Invoke (action : string) (args : list string)
| Analyze (user_input : string)
| Think (user_input : string).

Record State := {
  reminders : list Reminder;
  edith_brain : EdithBrain;
  readings : nat;            (* clock and random readings made so far *)
  log : list Event
}.

(** ** State and exception monad *)

Definition M (A : Type) : Type := State -> Outcome A * State.

Definition ret {A} (a : A) : M A := fun st => (Returned a, st).

Definition bind {A B} (c : M A) (k : A -> M B) : M B :=
  fun st =>
    match c st with
    | (Returned a, st') => k a st'
    | (Raised e, st') => (Raised e, st')
    end.

Definition raise {A} (e : PyExc) : M A := fun st => (Raised e, st).

(** [try: body  except Exception as e: handler] *)
Definition try_except {A} (body : M A) (handler : PyExc -> M A) : M A :=
  fun st =>
    match body st with
    | (Raised e, st') => handler e st'
    | r => r
    end.

Definition lift {A} (o : Outcome A) : M A := fun st => (o, st).

Declare Scope py_scope.
Delimit Scope py_scope with py.
Notation "x <- c ;; k" := (bind c (fun x => k))
  (at level 61, c at next level, right associativity) : py_scope.
Notation "c ;; k" := (bind c (fun _ => k))
  (at level 61, right associativity) : py_scope.
Local Open Scope py_scope.

Definition emit (e : Event) : M unit :=
  fun st =>
    (Returned tt,
     {| reminders := reminders st; edith_brain := edith_brain st;
        readings := readings st; log := (log st ++ [e])%list |}).

Definition print (text : string) : M unit := emit (Print text).

Definition take_reading : M nat :=
  fun st =>
    (Returned (readings st),
     {| reminders := reminders st; edith_brain := edith_brain st;
        readings := S (readings st); log := log st |}).

Definition get_reminders : M (list Reminder) :=
  fun st => (Returned (reminders st), st).

Definition set_reminders (rs : list Reminder) : M unit :=
  fun st =>
    (Returned tt,
     {| reminders := rs; edith_brain := edith_brain st;
        readings := readings st; log := log st |}).

Definition get_brain : M EdithBrain :=
  fun st => (Returned (edith_brain st), st).

Definition set_chat_history_ids (ids : list Z) : M unit :=
  fun st =>
    (Returned tt,
     {| reminders := reminders st;
        edith_brain :=
          {| device := device (edith_brain st);
             tokenizer := tokenizer (edith_brain st);
             model := model (edith_brain st);
             chat_history_ids := Some ids |};
        readings := readings st; log := log st |}).

(** [None] is falsy, a string is truthy when it is not empty. *)
Definition truthy_opt (o : option string) : bool :=
  match o with
  | None => false
  | Some s => truthy s
  end.

(** [d.get(k)] on a dict given by its items *)
Fixpoint dict_get {V : Type} (d : list (string * V)) (k : string) : option V :=
  match d with
  | [] => None
  | (k', v) :: rest => if String.eqb k k' then Some v else dict_get rest k
  end.

(** ** Configuration *)

Record UserProfile := {
  name : string;
  location : string;
  interests : list string;
  status_level : string
}.

Definition USER_PROFILE : UserProfile :=
  {| name := "Devansh Prabhakar";
     location := "Mumbai";
     interests := ["coding"; "space exploration"; "cybersecurity"];
     status_level := "Optimal" |}.

Definition OPENWEATHERMAP_API_KEY : string := "YOUR_OPENWEATHERMAP_API_KEY_HERE".

Definition PROGRAMS : list (string * list (string * string)) :=
  [ ("windows", [("notepad", "notepad.exe"); ("calculator", "calc.exe");
                 ("paint", "mspaint.exe"); ("cmd", "cmd.exe");
                 ("explorer", "explorer.exe")]);
    ("darwin", [("safari", "Safari"); ("notes", "Notes");
                ("calculator", "Calculator"); ("terminal", "Terminal")]);
    ("linux", [("terminal", "gnome-terminal");
               ("calculator", "gnome-calculator"); ("browser", "firefox")]) ].

(** ** The program *)

Section Program.

Variable w : World.

(** *** class EdithBrain *)

Definition set_brain (b : EdithBrain) : M unit :=
  fun st =>
    (Returned tt,
     {| reminders := reminders st; edith_brain := b;
        readings := readings st; log := log st |}).

Definition _load_model : M unit :=
  try_except
    (print "E.D.I.T.H. Brain: Loading conversational matrix (DialoGPT-large)..." ;;
     tok <- lift (AutoTokenizer_from_pretrained w) ;;
     b <- get_brain ;;
     set_brain {| device := device b; tokenizer := Some tok;
                  model := model b;
                  chat_history_ids := chat_history_ids b |} ;;
     mdl <- lift (AutoModelForCausalLM_from_pretrained w) ;;
     b <- get_brain ;;
     set_brain {| device := device b; tokenizer := tokenizer b;
                  model := Some mdl;
                  chat_history_ids := chat_history_ids b |} ;;
     print ("E.D.I.T.H. Brain: Conversational model loaded onto "
              ++ upper (device b) ++ "."))
    (fun e =>
       print ("CRITICAL WARNING: E.D.I.T.H. Brain failed to load. Conversational abilities will be offline. Error: "
                ++ exc_str e)).

(** [EdithBrain.__init__] *)
Definition EdithBrain_init : M unit :=
  set_brain {| device := if cuda_is_available w then "cuda" else "cpu";
               tokenizer := None; model := None;
               chat_history_ids := None |} ;;
  _load_model.

Definition is_ready (b : EdithBrain) : bool :=
  match model b, tokenizer b with
  | Some _, Some _ => true
  | _, _ => false
  end.

Definition offline_message : string :=
  "My advanced conversational matrix is offline. I cannot process the query.".

Definition think (user_input : string) : M string :=
  emit (Think user_input) ;;
  self <- get_brain ;;
  match tokenizer self, model self with
  | Some tok, Some mdl =>
      new_user_input_ids <- lift (encode tok (user_input ++ eos_token tok)) ;;
      let bot_input_ids :=
        match chat_history_ids self with
        | Some history => (history ++ new_user_input_ids)%list
        | None => new_user_input_ids
        end in
      emit (Generate bot_input_ids) ;;
      ids <- lift (generate mdl bot_input_ids) ;;
      set_chat_history_ids ids ;;
      response <- lift (decode tok (skipn (length bot_input_ids) ids)) ;;
      ret response
  | _, _ => ret offline_message
  end.

(** *** Core functions *)

Definition edith_speak (text : string) : M unit :=
  print (nl ++ "[E.D.I.T.H.]: " ++ text) ;;
  if tts_engine w then emit (Say text) else ret tt.

Definition read_clock : M Clock :=
  n <- take_reading ;; ret (now w n).

Definition greet_user : M unit :=
  t <- read_clock ;;
  let greeting :=
    if ((5 <=? hour t) && (hour t <? 12))%nat then "Good morning"
    else if ((12 <=? hour t) && (hour t <? 18))%nat then "Good afternoon"
    else "Good evening" in
  edith_speak
    ("**System Boot Sequence Complete.** " ++ greeting ++ ", "
       ++ name USER_PROFILE ++ ". "
       ++ "Current status is " ++ status_level USER_PROFILE
       ++ ". How may I prioritize your tasks?").

Definition tell_date_time : M unit :=
  t <- read_clock ;;
  let message :=
    "The current date is **" ++ date_str t ++ "**, and the time is **"
      ++ time_str t ++ "**." in
  edith_speak message.

Definition browser_open (url : string) : M unit :=
  emit (BrowserOpen url) ;;
  match webbrowser_open w url with
  | Some e => raise e
  | None => ret tt
  end.

Definition open_website (url : string) : M unit :=
  edith_speak ("Executing web traversal to **" ++ url ++ "**.") ;;
  let url := if negb (startswith url "http") then "https://" ++ url else url in
  browser_open url.

Definition popen (args : PopenArgs) : M unit :=
  emit (Popen args) ;;
  match subprocess_Popen w args with
  | Some e => raise e
  | None => ret tt
  end.

Definition open_application (app_name : string) : M unit :=
  let app_name_processed := strip (lower app_name) in
  let os_name := lower (platform_system w) in
  let os_programs :=
    match dict_get PROGRAMS os_name with
    | Some d => d
    | None => []
    end in
  let command_to_run := dict_get os_programs app_name_processed in
  match command_to_run with
  | Some cmd =>
      if truthy cmd then
        edith_speak ("Attempting to interface with local application: **"
                       ++ app_name ++ "**.") ;;
        try_except
          ((if String.eqb os_name "darwin"
            then popen (PopenArgv ["open"; "-a"; cmd])
            else popen (PopenShell cmd)) ;;
           edith_speak ("Affirmative. Opening " ++ app_name ++ "."))
          (fun e =>
             edith_speak ("A critical error occurred while opening "
                            ++ app_name ++ ": " ++ exc_str e))
      else
        edith_speak ("I don't have a configuration for the application '"
                       ++ app_name ++ "'.")
  | None =>
      edith_speak ("I don't have a configuration for the application '"
                     ++ app_name ++ "'.")
  end.

Definition open_target (target : string) : M unit :=
  if contains target "." then open_website target
  else open_application target.

Definition search_web (query : string) : M unit :=
  edith_speak ("Querying global information network for: **" ++ query ++ "**.") ;;
  browser_open ("https://www.google.com/search?q=" ++ replace_char " " "+" query).

(** *** Analysis and chat *)

Definition edith_analyze (user_input : string) : M unit :=
  emit (Analyze user_input) ;;
  let input_lower := lower user_input in
  response <-
    (if any_in ["how are you"; "status report"; "condition"] input_lower then
       ret "My core systems are operating within defined parameters. I am fully engaged and ready for high-level information processing."
     else if any_in ["security threat"; "vulnerability"; "risk assessment"] input_lower then
       ret ("Risk assessment initiated. While no immediate threats are detected, I recommend reviewing best practices for **"
              ++ nth 2 (interests USER_PROFILE) "" ++ "** to maintain network integrity.")
     else if any_in ["who is your friend"; "who's your friend"] input_lower then
       ret ("That is easy. My friend and primary collaborator is **"
              ++ name USER_PROFILE ++ "**.")
     else if any_in ["who created you"; "your maker"] input_lower then
       ret ("My designation originates from my primary user and programmer, **"
              ++ name USER_PROFILE ++ "**.")
     else if any_in ["inspire me"; "motivate"; "positive"] input_lower then
       ret "Your current trajectory is optimal. Maintain focus on complex problem-solving. Success is the logical result of persistent effort."
     else
       try_except
         (think user_input)
         (fun e =>
            let response :=
              "A critical error occurred during AI inference: " ++ exc_str e in
            print ("Error in edith_analyze: " ++ exc_str e) ;;
            ret response)) ;;
  edith_speak response.

Definition ai_text_generation : M unit :=
  let prompts :=
    [ "Hypothesis: The integration of quantum computing will reduce current processing time metrics by a factor of 10^9 within the next fiscal cycle. Key challenges involve qubit stability and environmental decoherence.";
      "Analytical Report: Observed data suggests a correlation between modular coding architecture and a 42% reduction in post-deployment critical failures. Standardization is mandatory for scaling.";
      "System Log Analysis: External API latency spike detected at 02:45 UTC, attributed to a transient network bottleneck on the European gateway. No data loss occurred, but redundancy protocols were activated." ] in
  n <- take_reading ;;
  let generated := nth (choice w n mod length prompts) prompts "" in
  edith_speak ("**Analytical Synthesis Complete.** Displaying generated report: "
                 ++ generated).

(** *** Reminders *)

Definition missing_task_message : string :=
  "The task parameter is missing. Please state the command clearly, for example: 'set task review code'.".

Definition set_reminder (command_line : string) : M unit :=
  let parts := split1 "task" command_line in
  let task_ : option string :=
    if (1 <? length parts)%nat then Some (strip (nth 1 parts "")) else None in
  match task_ with
  | Some t =>
      if truthy t then
        c <- read_clock ;;
        let timestamp_ := minute_stamp c in
        rs <- get_reminders ;;
        set_reminders (rs ++ [{| task := t; timestamp := timestamp_ |}])%list ;;
        edith_speak ("Task **'" ++ t ++ "'** successfully logged at "
                       ++ timestamp_ ++ ". Priority set to standard.")
      else edith_speak missing_task_message
  | None => edith_speak missing_task_message
  end.

(** The [for i, r in enumerate(reminders)] loop of [view_reminders],
    from index [i] on. *)
Fixpoint print_reminders (i : nat) (rs : list Reminder) : M unit :=
  match rs with
  | [] => ret tt
  | r :: rest =>
      print ("  " ++ str_of_nat (i + 1) ++ ": Logged " ++ timestamp r
               ++ " - **" ++ task r ++ "**") ;;
      print_reminders (S i) rest
  end.

Definition view_reminders : M unit :=
  rs <- get_reminders ;;
  match rs with
  | [] => edith_speak "No active tasks are currently logged in the memory matrix."
  | _ :: _ =>
      edith_speak "Displaying active task log:" ;;
      print_reminders 0 rs
  end.

Definition clear_reminders : M unit :=
  rs <- get_reminders ;;
  match rs with
  | [] => edith_speak "Task log is empty. No action required."
  | _ :: _ =>
      set_reminders [] ;;
      edith_speak "All active tasks have been successfully purged from the log. Memory status: Clear."
  end.

(** *** Weather *)

Definition get_weather (location_input : string) : M unit :=
  if String.eqb OPENWEATHERMAP_API_KEY "YOUR_OPENWEATHERMAP_API_KEY_HERE" then
    edith_speak "Weather module is currently uncalibrated. API key is missing. Please update the configuration file."
  else
    let location_query := replace_char " " "+" (strip location_input) in
    let url :=
      "http://api.openweathermap.org/data/2.5/weather?q=" ++ location_query
        ++ "&appid=" ++ OPENWEATHERMAP_API_KEY ++ "&units=metric" in
    emit (HttpGet url) ;;
    match requests_get w url with
    | RequestException =>
        edith_speak "Network connection failure. Unable to access external environmental data service."
    | OtherException e =>
        print ("Weather module error: " ++ exc_str e) ;;
        edith_speak "An unhandled exception occurred in the weather module."
    | CodNot200 message =>
        let error_message :=
          match message with
          | Some m => m
          | None => "Location not found or invalid."
          end in
        edith_speak ("Error accessing environmental data for **"
                       ++ location_input ++ "**: " ++ error_message)
    | Report temp humidity description city =>
        let condition := capitalize description in
        let city_name :=
          match city with
          | Some c => c
          | None => location_input
          end in
        edith_speak
          ("Current environmental conditions for **" ++ city_name ++ "**: "
             ++ "Temperature is " ++ temp ++ "°C. Humidity is at "
             ++ humidity ++ "%. "
             ++ "Observed condition: " ++ condition ++ ".")
    end.

(** *** Input *)

Inductive KeyboardInput :=
| Typed (text : string)      (* input() returns text *)
| EndOfInput.                (* input() raises EOFError or KeyboardInterrupt *)

Inductive MicrophoneInput :=
| WaitTimeout                (* listen raises sr.WaitTimeoutError *)
| Recognized (text : string) (* recognize_google returns text *)
| UnknownValue               (* recognize_google raises sr.UnknownValueError *)
| RequestError (e : PyExc).  (* recognize_google raises sr.RequestError *)

(** What the user does while one [listen_for_command] is awaited: the
    answer of the keyboard and the answer of the microphone, of which
    the function consults the one [VOICE_ENABLED] selects. *)
Record Stimulus := {
  keyboard : KeyboardInput;
  microphone : MicrophoneInput
}.

Definition listen_for_command (s : Stimulus) : M string :=
  if negb (VOICE_ENABLED w) then
    emit (Input (nl ++ "[" ++ name USER_PROFILE ++ "] > ")) ;;
    match keyboard s with
    | Typed command => ret (strip (lower command))
    | EndOfInput => ret "exit"
    end
  else
    print (nl ++ "[" ++ name USER_PROFILE ++ "] (Listening...)") ;;
    emit MicListen ;;
    match microphone s with
    | WaitTimeout =>
        print "No speech detected." ;;
        ret ""
    | Recognized command =>
        print "E.D.I.T.H. processing audio..." ;;
        print ("You said: " ++ command) ;;
        ret (lower command)
    | UnknownValue =>
        print "E.D.I.T.H. processing audio..." ;;
        print "E.D.I.T.H. could not understand the audio. Please speak clearly." ;;
        ret ""
    | RequestError e =>
        print "E.D.I.T.H. processing audio..." ;;
        edith_speak ("A network error occurred with the speech recognition service; "
                       ++ exc_str e) ;;
        ret ""
    end.

(** *** Main loop *)

Definition display_help : M unit :=
  let help_message :=
    "Available Commands for E.D.I.T.H.:" ++ nl
      ++ "  - **time**: Retrieve current date and time." ++ nl
      ++ "  - **status**: Get E.D.I.T.H.'s current operational status." ++ nl
      ++ "  - **analyze [query]**: Initiate a core analytical conversation (e.g., 'analyze how are you')." ++ nl
      ++ "  - **generate report**: Create a complex, simulated analytical report." ++ nl
      ++ "  - **weather [city]**: Fetch environmental data (e.g., 'weather London')." ++ nl
      ++ "  - **search [query]**: Search the web for a given query." ++ nl
      ++ "  - **open [app/website]**: Opens an application or website (e.g., 'open notepad', 'open google.com')." ++ nl
      ++ "  - **set task [task]**: Log a new task (e.g., 'set task buy milk')." ++ nl
      ++ "  - **view tasks**: Display the list of active tasks." ++ nl
      ++ "  - **clear tasks**: Purge all tasks from the log." ++ nl
      ++ "  - **help**: Display this command index." ++ nl
      ++ "  - **exit**: Shut down E.D.I.T.H.'s console." in
  print (nl ++ repeat_str "=" 70) ;;
  print help_message ;;
  print (repeat_str "=" 70).

(** What a call returns to the router: [None], or a coroutine object,
    which is the body that runs once it is awaited. *)
Inductive PyVal :=
| PyNone
| PyCoroutine (body : M unit).

(** A function object as the router inspects it: [__name__],
    [__code__.co_argcount], [asyncio.iscoroutinefunction] and the call
    on positional arguments. *)
Record PyFunction := {
  fn_name : string;
  co_argcount : nat;
  iscoroutinefunction : bool;
  py_call : list string -> M PyVal
}.

Definition arity_error {A : Type} (fname : string) : M A :=
  raise (mkExc "TypeError" (fname ++ "() called with the wrong number of positional arguments")).

(** [def f(): body] *)
Definition def0 (fname : string) (body : M unit) : PyFunction :=
  {| fn_name := fname; co_argcount := 0; iscoroutinefunction := false;
     py_call := fun args =>
                  match args with
                  | [] => body ;; ret PyNone
                  | _ => arity_error fname
                  end |}.

(** [def f(x): body] *)
Definition def1 (fname : string) (body : string -> M unit) : PyFunction :=
  {| fn_name := fname; co_argcount := 1; iscoroutinefunction := false;
     py_call := fun args =>
                  match args with
                  | [x] => body x ;; ret PyNone
                  | _ => arity_error fname
                  end |}.

(** [async def f(x): body]: the call only creates the coroutine. *)
Definition async_def1 (fname : string) (body : string -> M unit) : PyFunction :=
  {| fn_name := fname; co_argcount := 1; iscoroutinefunction := true;
     py_call := fun args =>
                  match args with
                  | [x] => ret (PyCoroutine (body x))
                  | _ => arity_error fname
                  end |}.

(** [lambda: e] and [lambda arg: e] *)
Definition lambda0 (e : M PyVal) : PyFunction :=
  {| fn_name := "<lambda>"; co_argcount := 0; iscoroutinefunction := false;
     py_call := fun args =>
                  match args with
                  | [] => e
                  | _ => arity_error "<lambda>"
                  end |}.

Definition lambda1 (e : string -> M PyVal) : PyFunction :=
  {| fn_name := "<lambda>"; co_argcount := 1; iscoroutinefunction := false;
     py_call := fun args =>
                  match args with
                  | [x] => e x
                  | _ => arity_error "<lambda>"
                  end |}.

(** A call of a synchronous function, whose value is [None], and a
    call of [edith_analyze], whose value is a coroutine. *)
Definition returns_none (c : M unit) : M PyVal := c ;; ret PyNone.
Definition coroutine_of (c : M unit) : M PyVal := ret (PyCoroutine c).

Definition shutdown_message : string :=
  "System shutdown initialized. Standby mode activated. Goodbye, "
    ++ name USER_PROFILE.

Definition COMMANDS : list (string * PyFunction) :=
  [ ("help", def0 "display_help" display_help);
    ("time", def0 "tell_date_time" tell_date_time);
    ("status",
      lambda0
        (n <- take_reading ;;
         returns_none
           (edith_speak
              ("Current operational status: **" ++ status_level USER_PROFILE
                 ++ "**. All modules are functioning with "
                 ++ str_of_nat (if randint_99_100 w n then 100 else 99)
                 ++ "% efficiency."))));
    ("generate",
      lambda1 (fun arg =>
        if String.eqb arg "report" then returns_none ai_text_generation
        else coroutine_of (edith_analyze ("generate " ++ arg))));
    ("view",
      lambda1 (fun arg =>
        if String.eqb arg "tasks" then returns_none view_reminders
        else coroutine_of (edith_analyze ("view " ++ arg))));
    ("clear",
      lambda1 (fun arg =>
        if String.eqb arg "tasks" then returns_none clear_reminders
        else coroutine_of (edith_analyze ("clear " ++ arg))));
    ("analyze", async_def1 "edith_analyze" edith_analyze);
    ("weather", def1 "get_weather" get_weather);
    ("search", def1 "search_web" search_web);
    ("open", def1 "open_target" open_target);
    ("set",
      lambda1 (fun arg =>
        if startswith arg "task" then returns_none (set_reminder ("set " ++ arg))
        else coroutine_of (edith_analyze ("set " ++ arg))));
    ("exit", lambda0 (returns_none (edith_speak shutdown_message)));
    ("quit", lambda0 (returns_none (edith_speak shutdown_message)));
    ("shutdown", lambda0 (returns_none (edith_speak shutdown_message))) ].

(** A call of [command_func] on positional arguments as the router
    evaluates it, with the ghost mark of the invocation. *)
Definition call (action : string) (command_func : PyFunction)
           (args : list string) : M PyVal :=
  emit (Invoke action args) ;;
  py_call command_func args.

(** [asyncio.iscoroutine(v)] *)
Definition iscoroutine (v : PyVal) : bool :=
  match v with
  | PyCoroutine _ => true
  | PyNone => false
  end.

(** [await v] *)
Definition await (v : PyVal) : M unit :=
  match v with
  | PyCoroutine body => body
  | PyNone =>
      raise (mkExc "TypeError" "object NoneType can't be used in 'await' expression")
  end.

Inductive LoopCtl := Continue | Break.

(** The call of the handler found in [COMMANDS]: the [if] that starts
    at [if asyncio.iscoroutinefunction(command_func)]. In the lambda
    branches the condition of the conditional expression is evaluated
    first and is itself a call of [command_func]; a coroutine made by
    that first call is dropped without being awaited (the warning Python
    writes for it when it is collected is not modelled). *)
Definition invoke_handler (action : string) (command_func : PyFunction)
           (argument : string) : M unit :=
  if iscoroutinefunction command_func then
    c <- call action command_func [argument] ;; await c
  else if String.eqb (fn_name command_func) "<lambda>" then
    if (0 <? co_argcount command_func)%nat then
      probe <- call action command_func [argument] ;;
      if iscoroutine probe
      then c <- call action command_func [argument] ;; await c
      else call action command_func [argument] ;; ret tt
    else
      probe <- call action command_func [] ;;
      if iscoroutine probe
      then c <- call action command_func [] ;; await c
      else call action command_func [] ;; ret tt
  else if (0 <? co_argcount command_func)%nat then
    call action command_func [argument] ;; ret tt
  else
    call action command_func [] ;; ret tt.

(** The body of the [while] loop from [parts = command_line.split(" ", 1)]
    on, for a non-empty [command_line]. *)
Definition dispatch (command_line : string) : M LoopCtl :=
  let parts := split1 " " command_line in
  let action := nth 0 parts "" in
  let argument := if (1 <? length parts)%nat then nth 1 parts "" else "" in
  match dict_get COMMANDS action with
  | Some command_func =>
      invoke_handler action command_func argument ;;
      if str_in action ["exit"; "quit"; "shutdown"] then ret Break
      else ret Continue
  | None =>
      await (PyCoroutine (edith_analyze command_line)) ;;
      ret Continue
  end.

(** One turn of the [while True] loop, with its [except Exception].
    [KeyboardInterrupt] is an asynchronous signal and has no place in
    this model, so its [except] clause is left out. *)
Definition loop_body (s : Stimulus) : M LoopCtl :=
  try_except
    (command_line <- listen_for_command s ;;
     if negb (truthy command_line) then ret Continue
     else dispatch command_line)
    (fun e =>
       print ("An unhandled critical error occurred: " ++ exc_str e) ;;
       edith_speak "Critical system failure. Contact support." ;;
       ret Break).

(** How a run of the loop over the stimuli at hand ends: the loop was
    left by [break] with [unread] stimuli never consulted, or it is
    awaiting further input. *)
Inductive SessionEnd :=
| Stopped (unread : list Stimulus)
| AwaitingInput.

Fixpoint command_loop (inputs : list Stimulus) : M SessionEnd :=
  match inputs with
  | [] => ret AwaitingInput
  | s :: rest =>
      ctl <- loop_body s ;;
      match ctl with
      | Continue => command_loop rest
      | Break => ret (Stopped rest)
      end
  end.

Definition start_edith_cli (inputs : list Stimulus) : M SessionEnd :=
  greet_user ;;
  command_loop inputs.

End Program.

(** The module-level objects before [start_edith_cli] runs:
    [reminders = []] and [edith_brain = EdithBrain()]. *)
Definition initial_state (w : World) : State :=
  snd (EdithBrain_init w
         {| reminders := [];
            edith_brain := {| device := ""; tokenizer := None; model := None;
                              chat_history_ids := None |};
            readings := 0; log := [] |}).

(** ** Vocabulary of the statements *)

(** The state with [evs] appended to its log. *)
Definition add_events (st : State) (evs : list Event) : State :=
  {| reminders := reminders st; edith_brain := edith_brain st;
     readings := readings st; log := (log st ++ evs)%list |}.

(** The effects of one [edith_speak(text)]. *)
Definition spoken (w : World) (text : string) : list Event :=
  Print (nl ++ "[E.D.I.T.H.]: " ++ text)
    :: (if tts_engine w then [Say text] else []).

(** The first token of a line as the router takes it: [parts[0]]. *)
Definition action_of (command_line : string) : string :=
  nth 0 (split1 " " command_line) "".

(** [argument] as the router takes it. *)
Definition argument_of (command_line : string) : string :=
  let parts := split1 " " command_line in
  if (1 <? length parts)%nat then nth 1 parts "" else "".

Definition registered (w : World) (action : string) : bool :=
  match dict_get (COMMANDS w) action with
  | Some _ => true
  | None => false
  end.

Definition command_names : list string :=
  ["help"; "time"; "status"; "generate"; "view"; "clear"; "analyze";
   "weather"; "search"; "open"; "set"; "exit"; "quit"; "shutdown"].

(** The names that [COMMANDS] binds to a lambda. *)
Definition lambda_bound : list string :=
  ["status"; "generate"; "view"; "clear"; "set"; "exit"; "quit"; "shutdown"].

Definition terminal_names : list string := ["exit"; "quit"; "shutdown"].

(** How many times the router called the handler of [action]. *)
Fixpoint invocations (action : string) (evs : list Event) : nat :=
  match evs with
  | [] => 0
  | Invoke a _ :: rest =>
      (if String.eqb a action then 1 else 0) + invocations action rest
  | _ :: rest => invocations action rest
  end.

(** The texts the response resolver ran on, in order. *)
Fixpoint resolver_inputs (evs : list Event) : list string :=
  match evs with
  | [] => []
  | Analyze x :: rest => x :: resolver_inputs rest
  | _ :: rest => resolver_inputs rest
  end.

(** Events that are neither a handler invocation nor a resolver run. *)
Definition quiet (e : Event) : Prop :=
  match e with
  | Invoke _ _ | Analyze _ => False
  | _ => True
  end.

(** Events in which the generative capability takes no part. *)
Definition not_generative (e : Event) : Prop :=
  match e with
  | Think _ | Generate _ => False
  | _ => True
  end.

(** A computation that only appends quiet events to the log. *)
Definition silent {A : Type} (c : M A) : Prop :=
  forall st, exists evs,
    log (snd (c st)) = (log st ++ evs)%list /\ Forall quiet evs.

(** A computation whose events contain no handler invocation. *)
Definition uninvoking {A : Type} (c : M A) : Prop :=
  forall st, exists evs,
    log (snd (c st)) = (log st ++ evs)%list
    /\ forall a, invocations a evs = 0.

(** A computation that never raises. *)
Definition returns {A : Type} (c : M A) : Prop :=
  forall st, exists a, fst (c st) = Returned a.

(** A computation that leaves the reminder store alone. *)
Definition keeps_reminders {A : Type} (c : M A) : Prop :=
  forall st, reminders (snd (c st)) = reminders st.

(** The deterministic rules of the resolver in their priority order:
    trigger keywords and canned reply. This list follows the description
    of the resolver as an ordered rule list; [edith_analyze] itself is the
    [if]/[elif] chain above. *)
Definition RULES : list (list string * string) :=
  [ (["how are you"; "status report"; "condition"],
     "My core systems are operating within defined parameters. I am fully engaged and ready for high-level information processing.");
    (["security threat"; "vulnerability"; "risk assessment"],
     "Risk assessment initiated. While no immediate threats are detected, I recommend reviewing best practices for **cybersecurity** to maintain network integrity.");
    (["who is your friend"; "who's your friend"],
     "That is easy. My friend and primary collaborator is **Devansh Prabhakar**.");
    (["who created you"; "your maker"],
     "My designation originates from my primary user and programmer, **Devansh Prabhakar**.");
    (["inspire me"; "motivate"; "positive"],
     "Your current trajectory is optimal. Maintain focus on complex problem-solving. Success is the logical result of persistent effort.") ].

Definition rule_matches (r : list string * string) (input_lower : string) : bool :=
  any_in (fst r) input_lower.

(** First-match-wins evaluation of a rule list. *)
Fixpoint first_match (rules : list (list string * string))
         (input_lower : string) : option string :=
  match rules with
  | [] => None
  | r :: rest =>
      if rule_matches r input_lower then Some (snd r)
      else first_match rest input_lower
  end.

(** The outcome of the [self.model.generate] call that [think(user_input)]
    makes in state [st], or [None] when [think] does not reach the call. *)
Definition generate_call (st : State) (user_input : string)
  : option (Outcome (list Z)) :=
  match tokenizer (edith_brain st), model (edith_brain st) with
  | Some tok, Some mdl =>
      match encode tok (user_input ++ eos_token tok) with
      | Returned new_user_input_ids =>
          Some (generate mdl
                  (match chat_history_ids (edith_brain st) with
                   | Some history => (history ++ new_user_input_ids)%list
                   | None => new_user_input_ids
                   end))
      | Raised _ => None
      end
  | _, _ => None
  end.

Definition generation_failure_message (e : PyExc) : string :=
  "A critical error occurred during AI inference: " ++ exc_str e.

(** Whether [print(text)] is among the events. *)
Definition printed (text : string) (evs : list Event) : bool :=
  existsb (fun e => match e with
                    | Print t => String.eqb t text
                    | _ => false
                    end) evs.

(** Whether E.D.I.T.H. reported the missing task parameter. *)
Definition reports_missing_parameter (evs : list Event) : bool :=
  printed (nl ++ "[E.D.I.T.H.]: " ++ missing_task_message) evs.

(** The events logged from state [st] to the later state [st']. *)
Definition events_since (st st' : State) : list Event :=
  skipn (length (log st)) (log st').

(** The URL the opener hands to the browser for a target with a dot. *)
Definition url_of_target (target : string) : string :=
  if startswith target "http" then target else "https://" ++ target.

(** The entry of the per-OS table of [PROGRAMS] for a target. *)
Definition program_for (w : World) (target : string) : option string :=
  dict_get
    (match dict_get PROGRAMS (lower (platform_system w)) with
     | Some d => d
     | None => []
     end)
    (strip (lower target)).

(** How [open_application] launches [cmd]. *)
Definition launch_args (w : World) (cmd : string) : PopenArgs :=
  if String.eqb (lower (platform_system w)) "darwin"
  then PopenArgv ["open"; "-a"; cmd]
  else PopenShell cmd.

(** ** Sample worlds *)

Definition sample_clock : Clock :=
  {| hour := 9; date_str := "Monday, 01 January 2024";
     time_str := "09:00 AM"; minute_stamp := "2024-01-01 09:00" |}.

Definition toy_tokenizer : Tokenizer :=
  {| eos_token := "<|endoftext|>";
     encode := fun s => Returned [Z.of_nat (String.length s)];
     decode := fun ids => Returned (str_of_nat (length ids)) |}.

(** A model whose generation always raises. *)
Definition failing_model : CausalLM :=
  {| generate := fun _ => Raised (mkExc "RuntimeError" "CUDA out of memory") |}.

(** A model that answers with one more token. *)
Definition echo_model : CausalLM :=
  {| generate := fun ids => Returned (ids ++ [7%Z])%list |}.

(** A Linux text console on which the brain fails to load. *)
Definition offline_world : World :=
  {| VOICE_ENABLED := false;
     tts_engine := false;
     platform_system := "Linux";
     cuda_is_available := false;
     now := fun _ => sample_clock;
     randint_99_100 := fun _ => true;
     choice := fun n => n;
     AutoTokenizer_from_pretrained := Raised (mkExc "OSError" "no network");
     AutoModelForCausalLM_from_pretrained := Raised (mkExc "OSError" "no network");
     webbrowser_open := fun _ => None;
     subprocess_Popen := fun _ => None;
     requests_get := fun _ => RequestException |}.

(** The same console with a loaded brain built from [mdl]. *)
Definition loaded_world (mdl : CausalLM) : World :=
  {| VOICE_ENABLED := false;
     tts_engine := false;
     platform_system := "Linux";
     cuda_is_available := false;
     now := fun _ => sample_clock;
     randint_99_100 := fun _ => true;
     choice := fun n => n;
     AutoTokenizer_from_pretrained := Returned toy_tokenizer;
     AutoModelForCausalLM_from_pretrained := Returned mdl;
     webbrowser_open := fun _ => None;
     subprocess_Popen := fun _ => None;
     requests_get := fun _ => RequestException |}.

(** The user types [text] (and stays silent at the microphone). *)
Definition typed (text : string) : Stimulus :=
  {| keyboard := Typed text; microphone := WaitTimeout |}.

(** The state in which [start_edith_cli] finds the offline console. *)
Definition offline_start : State := initial_state offline_world.

(** The state once [listen_for_command] has answered stimulus [s]. *)
Definition heard (w : World) (s : Stimulus) (st : State) : State :=
  snd (listen_for_command w s st).

(** ** Vocabulary of the session properties *)

Unset Implicit Arguments.

(** A computation every run of which moves the state along [R]. *)
Definition respects (R : State -> State -> Prop) {A : Type} (c : M A) : Prop :=
  forall st, R st (snd (c st)).

(** Events of conversation and bookkeeping: everything but the browser,
    the process launcher and the HTTP client. *)
Definition chat (e : Event) : Prop :=
  match e with
  | BrowserOpen _ | Popen _ | HttpGet _ => False
  | _ => True
  end.

(** A relation on states that the primitive steps of the program follow:
    it is a preorder, it allows logging an event that [E] admits, reading
    the clock or the random source, and replacing the conversation
    history; [E] admits every [chat] event. *)
Record Discipline (R : State -> State -> Prop) (E : Event -> Prop) : Prop := {
  d_refl : forall st, R st st;
  d_trans : forall a b c, R a b -> R b c -> R a c;
  d_chat : forall e, chat e -> E e;
  d_emit : forall st e, E e -> R st (add_events st [e]);
  d_reading : forall st, R st (snd (take_reading st));
  d_history : forall st ids, R st (snd (set_chat_history_ids ids st))
}.

(** A value whose coroutine, if it is one, respects [R] when awaited. *)
Definition value_respects (R : State -> State -> Prop) (v : PyVal) : Prop :=
  match v with
  | PyCoroutine body => respects R body
  | PyNone => True
  end.

(** A computation of a value that respects [R] and returns only values
    that do. *)
Definition computes_respecting (R : State -> State -> Prop) (e : M PyVal)
  : Prop :=
  forall st,
    R st (snd (e st))
    /\ match fst (e st) with
       | Returned v => value_respects R v
       | Raised _ => True
       end.

Definition handler_respects (R : State -> State -> Prop) (f : PyFunction)
  : Prop :=
  forall args, computes_respecting R (py_call f args).

(** The log grows by events that [E] admits. *)
Definition grows_by (E : Event -> Prop) (st st' : State) : Prop :=
  exists evs, log st' = (log st ++ evs)%list /\ Forall E evs.

(** A task as [set_reminder] stores it: not empty, without surrounding
    whitespace. *)
Definition well_formed_task (r : Reminder) : Prop :=
  truthy (task r) = true /\ strip (task r) = task r.

(** What [set_reminder] appends for a new record: the record must be
    well formed for [R] to follow. *)
Definition allows_append (R : State -> State -> Prop) : Prop :=
  forall st r,
    well_formed_task r ->
    R st (snd (set_reminders (reminders st ++ [r])%list st)).

Definition allows_clear (R : State -> State -> Prop) : Prop :=
  forall st, R st (snd (set_reminders [] st)).


(** The answers of the microphone after which no text is recognised. *)
Definition speech_failed (m : MicrophoneInput) : bool :=
  match m with
  | Recognized _ => false
  | WaitTimeout | UnknownValue | RequestError _ => true
  end.



(** The events of a line that has nothing to open or search. *)
Definition indoor_event (e : Event) : Prop :=
  match e with
  | BrowserOpen _ | Popen _ | HttpGet _ => False
  | _ => True
  end.

(** [E] admits what [open_target] may do: open the URL of a target
    and launch the command configured for a target. *)
Definition admits_opening (w : World) (E : Event -> Prop) : Prop :=
  (forall target, E (BrowserOpen (url_of_target target)))
  /\ (forall target cmd,
        program_for w target = Some cmd -> E (Popen (launch_args w cmd))).

(** [E] admits what [search_web] may do. *)
Definition admits_searching (E : Event -> Prop) : Prop :=
  forall query,
    E (BrowserOpen ("https://www.google.com/search?q="
                      ++ replace_char " " "+" query)).

(** The lines of the two-word commands whose second word is not the
    expected one: [generate] without [report], [view] or [clear] without
    [tasks], [set] without a leading [task]. *)
Definition falls_back (line : string) : bool :=
  let action := action_of line in
  let argument := argument_of line in
  if String.eqb action "generate" then negb (String.eqb argument "report")
  else if String.eqb action "view" then negb (String.eqb argument "tasks")
  else if String.eqb action "clear" then negb (String.eqb argument "tasks")
  else if String.eqb action "set" then negb (startswith argument "task")
  else false.

(** How many times [model.generate] was called. *)
Fixpoint generations (evs : list Event) : nat :=
  match evs with
  | [] => 0
  | Generate _ :: rest => S (generations rest)
  | _ :: rest => generations rest
  end.


(** The URL [search_web] opens for a query. *)
Definition search_url (query : string) : string :=
  "https://www.google.com/search?q=" ++ replace_char " " "+" query.

(** What the brain can do: its device, tokenizer and model, that is
    everything but the conversation history. *)
Definition capability (b : EdithBrain)
  : string * option Tokenizer * option CausalLM :=
  (device b, tokenizer b, model b).

(** A voice console with a loaded brain. *)
Definition voice_world : World :=
  {| VOICE_ENABLED := true;
     tts_engine := true;
     platform_system := "Darwin";
     cuda_is_available := true;
     now := fun _ => sample_clock;
     randint_99_100 := fun _ => false;
     choice := fun n => n;
     AutoTokenizer_from_pretrained := Returned toy_tokenizer;
     AutoModelForCausalLM_from_pretrained := Returned echo_model;
     webbrowser_open := fun _ => None;
     subprocess_Popen := fun _ => None;
     requests_get := fun _ => RequestException |}.

(** A text console whose browser cannot be started. *)
Definition browserless_world : World :=
  {| VOICE_ENABLED := false;
     tts_engine := false;
     platform_system := "Linux";
     cuda_is_available := false;
     now := fun _ => sample_clock;
     randint_99_100 := fun _ => true;
     choice := fun n => n;
     AutoTokenizer_from_pretrained := Raised (mkExc "OSError" "no network");
     AutoModelForCausalLM_from_pretrained := Raised (mkExc "OSError" "no network");
     webbrowser_open := fun _ => Some (mkExc "Error" "could not locate runnable browser");
     subprocess_Popen := fun _ => None;
     requests_get := fun _ => RequestException |}.

(** The microphone answers [m] (and nothing is typed). *)
Definition at_microphone (m : MicrophoneInput) : Stimulus :=
  {| keyboard := EndOfInput; microphone := m |}.

Set Implicit Arguments.

(** ** Sanity checks of the embedding on concrete inputs *)

Example split1_set_task :
  split1 " " "set task buy milk" = ["set"; "task buy milk"].
Proof. reflexivity. Qed.

Example split1_no_space : split1 " " "help" = ["help"].
Proof. reflexivity. Qed.

Example split1_task :
  split1 "task" "set task buy milk" = ["set "; " buy milk"].
Proof. reflexivity. Qed.

Example strip_lower_typed : strip (lower "  Set Task Buy Milk ") = "set task buy milk".
Proof. reflexivity. Qed.

Example command_names_are_the_keys :
  map fst (COMMANDS offline_world) = command_names.
Proof. reflexivity. Qed.

Example command_names_unique : NoDup command_names.
Proof.
  unfold command_names.
  repeat (constructor; [simpl; intuition discriminate |]).
  constructor.
Qed.

Example lambda_bound_are_the_lambdas :
  map fst (filter (fun kv => String.eqb (fn_name (snd kv)) "<lambda>")
                  (COMMANDS offline_world)) = lambda_bound.
Proof. reflexivity. Qed.

Example initial_brain_offline :
  is_ready (edith_brain (initial_state offline_world)) = false.
Proof. reflexivity. Qed.

Example initial_brain_loaded :
  is_ready (edith_brain (initial_state (loaded_world echo_model))) = true.
Proof. reflexivity. Qed.

Example rules_are_the_elif_chain_replies :
  map snd RULES =
  [ "My core systems are operating within defined parameters. I am fully engaged and ready for high-level information processing.";
    "Risk assessment initiated. While no immediate threats are detected, I recommend reviewing best practices for **"
      ++ nth 2 (interests USER_PROFILE) "" ++ "** to maintain network integrity.";
    "That is easy. My friend and primary collaborator is **" ++ name USER_PROFILE ++ "**.";
    "My designation originates from my primary user and programmer, **" ++ name USER_PROFILE ++ "**.";
    "Your current trajectory is optimal. Maintain focus on complex problem-solving. Success is the logical result of persistent effort." ].
Proof. reflexivity. Qed.

(** ** Algebra of logs and of the monad *)

Lemma add_events_nil st : log (add_events st []) = log st.
Proof. unfold add_events; simpl. apply app_nil_r. Qed.

Lemma invocations_app a xs ys :
  invocations a (xs ++ ys) = invocations a xs + invocations a ys.
Proof.
  induction xs as [|e xs IH]; simpl; [reflexivity|].
  destruct e; auto. rewrite IH. lia.
Qed.

Lemma resolver_inputs_app xs ys :
  resolver_inputs (xs ++ ys) = (resolver_inputs xs ++ resolver_inputs ys)%list.
Proof.
  induction xs as [|e xs IH]; simpl; [reflexivity|].
  destruct e; auto. rewrite IH. reflexivity.
Qed.

Lemma quiet_invocations a evs : Forall quiet evs -> invocations a evs = 0.
Proof.
  induction 1 as [|e evs He _ IH]; simpl; [reflexivity|].
  destruct e; simpl in He; auto; contradiction.
Qed.

Lemma quiet_resolver_inputs evs : Forall quiet evs -> resolver_inputs evs = [].
Proof.
  induction 1 as [|e evs He _ IH]; simpl; [reflexivity|].
  destruct e; simpl in He; auto; contradiction.
Qed.

Lemma spoken_quiet w text : Forall quiet (spoken w text).
Proof. unfold spoken. destruct (tts_engine w); repeat constructor. Qed.

Lemma spoken_not_generative w text : Forall not_generative (spoken w text).
Proof. unfold spoken. destruct (tts_engine w); repeat constructor. Qed.

Section Frames.

Variable w : World.

Lemma edith_speak_run text st :
  edith_speak w text st = (Returned tt, add_events st (spoken w text)).
Proof.
  unfold edith_speak, spoken, print, emit, bind, ret, add_events.
  destruct (tts_engine w); simpl; rewrite <- ?app_assoc; reflexivity.
Qed.

Lemma silent_ret A (a : A) : silent (ret a).
Proof. intros st. exists []. simpl. rewrite app_nil_r. auto. Qed.

Lemma silent_raise A e : silent (@raise A e).
Proof. intros st. exists []. simpl. rewrite app_nil_r. auto. Qed.

Lemma silent_lift A (o : Outcome A) : silent (lift o).
Proof. intros st. exists []. simpl. rewrite app_nil_r. auto. Qed.

Lemma silent_emit e : quiet e -> silent (emit e).
Proof. intros He st. exists [e]. simpl. auto. Qed.

Lemma silent_bind A B (c : M A) (k : A -> M B) :
  silent c -> (forall a, silent (k a)) -> silent (bind c k).
Proof.
  intros Hc Hk st. unfold bind.
  destruct (Hc st) as [e1 [H1 Q1]].
  destruct (c st) as [[a|e] st1]; simpl in *.
  - destruct (Hk a st1) as [e2 [H2 Q2]].
    exists (e1 ++ e2)%list. rewrite H2, H1, app_assoc.
    split; [reflexivity | apply Forall_app; auto].
  - exists e1. auto.
Qed.

Lemma silent_try A (c : M A) (h : PyExc -> M A) :
  silent c -> (forall e, silent (h e)) -> silent (try_except c h).
Proof.
  intros Hc Hh st. unfold try_except.
  destruct (Hc st) as [e1 [H1 Q1]].
  destruct (c st) as [[a|e] st1]; simpl in *.
  - exists e1. auto.
  - destruct (Hh e st1) as [e2 [H2 Q2]].
    exists (e1 ++ e2)%list. rewrite H2, H1, app_assoc.
    split; [reflexivity | apply Forall_app; auto].
Qed.

Lemma silent_state_op A (c : M A) :
  (forall st, log (snd (c st)) = log st) -> silent c.
Proof. intros H st. exists []. rewrite H, app_nil_r. auto. Qed.

Lemma returns_ret A (a : A) : returns (ret a).
Proof. intros st. exists a. reflexivity. Qed.

Lemma returns_bind A B (c : M A) (k : A -> M B) :
  returns c -> (forall a, returns (k a)) -> returns (bind c k).
Proof.
  intros Hc Hk st. unfold bind.
  destruct (Hc st) as [a Ha].
  destruct (c st) as [[a'|e] st1]; simpl in *; [apply Hk | discriminate].
Qed.

Lemma returns_try A (c : M A) (h : PyExc -> M A) :
  (forall e, returns (h e)) -> returns (try_except c h).
Proof.
  intros Hh st. unfold try_except.
  destruct (c st) as [[a|e] st1]; simpl; [exists a; reflexivity | apply Hh].
Qed.

Lemma returns_total A (c : M A) (f : State -> A) (g : State -> State) :
  (forall st, c st = (Returned (f st), g st)) -> returns c.
Proof. intros H st. exists (f st). rewrite H. reflexivity. Qed.

Lemma keeps_ret A (a : A) : keeps_reminders (ret a).
Proof. intros st. reflexivity. Qed.

Lemma keeps_bind A B (c : M A) (k : A -> M B) :
  keeps_reminders c -> (forall a, keeps_reminders (k a)) ->
  keeps_reminders (bind c k).
Proof.
  intros Hc Hk st. unfold bind. specialize (Hc st).
  destruct (c st) as [[a|e] st1]; simpl in *; [rewrite Hk|]; assumption.
Qed.

Lemma keeps_try A (c : M A) (h : PyExc -> M A) :
  keeps_reminders c -> (forall e, keeps_reminders (h e)) ->
  keeps_reminders (try_except c h).
Proof.
  intros Hc Hh st. unfold try_except. specialize (Hc st).
  destruct (c st) as [[a|e] st1]; simpl in *; [|rewrite Hh]; assumption.
Qed.

End Frames.

(** ** Frame properties of the functions *)

Create HintDb frames.

#[export] Hint Resolve silent_ret silent_raise silent_lift returns_ret keeps_ret
  : frames.

Ltac frame_case :=
  match goal with
  | |- _ (match ?x with _ => _ end) => destruct x
  | |- _ (let _ := _ in _) => cbv zeta
  end.

Ltac silent_step :=
  first
    [ apply silent_bind; [|intros ?]
    | apply silent_try; [|intros ?]
    | apply silent_emit; exact I
    | solve [auto with frames]
    | frame_case
    | apply silent_state_op; intros; reflexivity ].

Ltac returns_step :=
  first
    [ apply returns_bind; [|intros ?]
    | apply returns_try; intros ?
    | solve [auto with frames]
    | frame_case
    | (intros ?; eexists; reflexivity) ].

Ltac keeps_step :=
  first
    [ apply keeps_bind; [|intros ?]
    | apply keeps_try; [|intros ?]
    | solve [auto with frames]
    | frame_case
    | (intros ?; reflexivity) ].

Section FunctionFrames.

Variable w : World.

Lemma silent_edith_speak text : silent (edith_speak w text).
Proof.
  intros st. rewrite edith_speak_run. exists (spoken w text).
  split; [reflexivity | apply spoken_quiet].
Qed.

Lemma returns_edith_speak text : returns (edith_speak w text).
Proof. intros st. rewrite edith_speak_run. exists tt. reflexivity. Qed.

Lemma keeps_edith_speak text : keeps_reminders (edith_speak w text).
Proof. intros st. rewrite edith_speak_run. reflexivity. Qed.

Hint Resolve silent_edith_speak returns_edith_speak keeps_edith_speak : frames.

Lemma silent_think x : silent (think x).
Proof. unfold think, print. repeat silent_step. Qed.

Lemma keeps_think x : keeps_reminders (think x).
Proof. unfold think, print. repeat keeps_step. Qed.

Hint Resolve silent_think keeps_think : frames.

(** The resolver never raises: the only call that may raise is inside
    its [try]. *)
Lemma returns_edith_analyze x : returns (edith_analyze w x).
Proof. unfold edith_analyze, print. repeat returns_step. Qed.

Lemma keeps_edith_analyze x : keeps_reminders (edith_analyze w x).
Proof. unfold edith_analyze, print. repeat keeps_step. Qed.

(** One run of the resolver on [x] logs [Analyze x] and then quiet
    events only. *)
Lemma edith_analyze_log x st :
  exists evs,
    log (snd (edith_analyze w x st)) = (log st ++ Analyze x :: evs)%list
    /\ Forall quiet evs.
Proof.
  unfold edith_analyze.
  match goal with
  | |- context [bind (emit (Analyze x)) ?k] =>
      set (rest := k tt);
      change (bind (emit (Analyze x)) k st)
        with (rest (add_events st [Analyze x]))
  end.
  assert (Hrest : silent rest).
  { subst rest. unfold print. repeat silent_step. }
  destruct (Hrest (add_events st [Analyze x])) as [evs [H Q]].
  exists evs. split; [|exact Q].
  unfold add_events in H at 2. simpl in H.
  rewrite <- app_assoc in H. exact H.
Qed.

Lemma silent_read_clock : silent (read_clock w).
Proof. unfold read_clock. repeat silent_step. Qed.

Lemma returns_read_clock : returns (read_clock w).
Proof. unfold read_clock. repeat returns_step. Qed.

Hint Resolve silent_read_clock returns_read_clock : frames.

Lemma silent_print_reminders rs : forall i, silent (print_reminders i rs).
Proof.
  induction rs as [|r rs IH]; intros i; simpl; [auto with frames|].
  unfold print. apply silent_bind; [apply silent_emit; exact I | intros _; apply IH].
Qed.

Lemma returns_print_reminders rs : forall i, returns (print_reminders i rs).
Proof.
  induction rs as [|r rs IH]; intros i; simpl; [auto with frames|].
  apply returns_bind; [intros ?; eexists; reflexivity | intros _; apply IH].
Qed.

Hint Resolve silent_print_reminders returns_print_reminders : frames.

Lemma silent_set_reminder line : silent (set_reminder w line).
Proof. unfold set_reminder. repeat silent_step. Qed.

Lemma returns_set_reminder line : returns (set_reminder w line).
Proof. unfold set_reminder. repeat returns_step. Qed.

Lemma silent_view_reminders : silent (view_reminders w).
Proof. unfold view_reminders. repeat silent_step. Qed.

Lemma returns_view_reminders : returns (view_reminders w).
Proof. unfold view_reminders. repeat returns_step. Qed.

Lemma silent_clear_reminders : silent (clear_reminders w).
Proof. unfold clear_reminders. repeat silent_step. Qed.

Lemma returns_clear_reminders : returns (clear_reminders w).
Proof. unfold clear_reminders. repeat returns_step. Qed.

Lemma silent_ai_text_generation : silent (ai_text_generation w).
Proof. unfold ai_text_generation. repeat silent_step. Qed.

Lemma returns_ai_text_generation : returns (ai_text_generation w).
Proof. unfold ai_text_generation. repeat returns_step. Qed.

Lemma silent_tell_date_time : silent (tell_date_time w).
Proof. unfold tell_date_time. repeat silent_step. Qed.

Lemma silent_display_help : silent display_help.
Proof. unfold display_help, print. repeat silent_step. Qed.

Lemma silent_get_weather x : silent (get_weather w x).
Proof. unfold get_weather, print. repeat silent_step. Qed.

Lemma silent_browser_open url : silent (browser_open w url).
Proof. unfold browser_open. repeat silent_step. Qed.

Lemma silent_popen args : silent (popen w args).
Proof. unfold popen. repeat silent_step. Qed.

Hint Resolve silent_browser_open silent_popen : frames.

Lemma silent_open_target x : silent (open_target w x).
Proof.
  unfold open_target, open_website, open_application. repeat silent_step.
Qed.

Lemma silent_search_web x : silent (search_web w x).
Proof. unfold search_web. repeat silent_step. Qed.

Lemma silent_listen_for_command s : silent (listen_for_command w s).
Proof. unfold listen_for_command, print. repeat silent_step. Qed.

Lemma returns_listen_for_command s : returns (listen_for_command w s).
Proof. unfold listen_for_command, print. repeat returns_step. Qed.

End FunctionFrames.

#[export] Hint Resolve silent_edith_speak returns_edith_speak keeps_edith_speak
  silent_think keeps_think silent_set_reminder returns_set_reminder
  silent_view_reminders returns_view_reminders silent_clear_reminders
  returns_clear_reminders silent_ai_text_generation returns_ai_text_generation
  silent_tell_date_time silent_display_help silent_get_weather
  silent_open_target silent_search_web returns_edith_analyze
  keeps_edith_analyze : frames.

(** ** The router *)

Lemma events_since_app st st' evs :
  log st' = (log st ++ evs)%list -> events_since st st' = evs.
Proof.
  intros H. unfold events_since. rewrite H.
  rewrite skipn_app, skipn_all, Nat.sub_diag. reflexivity.
Qed.

Section Router.

Variable w : World.

Lemma dispatch_registered line f :
  dict_get (COMMANDS w) (action_of line) = Some f ->
  dispatch w line =
  bind (invoke_handler (action_of line) f (argument_of line))
       (fun _ => if str_in (action_of line) ["exit"; "quit"; "shutdown"]
                 then ret Break else ret Continue).
Proof.
  intros H. unfold dispatch. fold (action_of line). rewrite H. reflexivity.
Qed.

Lemma dispatch_unregistered line :
  registered w (action_of line) = false ->
  dispatch w line = bind (edith_analyze w line) (fun _ => ret Continue).
Proof.
  unfold registered, dispatch. fold (action_of line).
  destruct (dict_get (COMMANDS w) (action_of line)); [discriminate|].
  reflexivity.
Qed.

(** The test on the terminal names after the handler does not touch
    the state. *)
Lemma bind_pure_state A B (c : M A) (f : A -> B) st :
  snd (bind c (fun a => ret (f a)) st) = snd (c st).
Proof. unfold bind, ret. destruct (c st) as [[a|e] st1]; reflexivity. Qed.

Lemma dispatch_state line f st :
  dict_get (COMMANDS w) (action_of line) = Some f ->
  snd (dispatch w line st) =
  snd (invoke_handler (action_of line) f (argument_of line) st).
Proof.
  intros H. rewrite (dispatch_registered _ H).
  unfold bind, ret.
  destruct (invoke_handler _ _ _ st) as [[a|e] st1]; simpl;
    [match goal with |- context [if ?b then _ else _] => destruct b end|];
    reflexivity.
Qed.

Lemma silent_uninvoking A (c : M A) : silent c -> uninvoking c.
Proof.
  intros H st. destruct (H st) as [evs [E Q]].
  exists evs. split; [exact E | intros a; apply quiet_invocations, Q].
Qed.

Lemma edith_analyze_uninvoking x : uninvoking (edith_analyze w x).
Proof.
  intros st. destruct (edith_analyze_log w x st) as [evs [E Q]].
  exists (Analyze x :: evs). split; [exact E|].
  intros a. simpl. apply quiet_invocations, Q.
Qed.

Lemma invocations_self a args : invocations a [Invoke a args] = 1.
Proof. simpl. rewrite String.eqb_refl. reflexivity. Qed.

(** A lambda whose value is [None]: the body runs for the test of the
    conditional expression and once more for its [else] operand. *)
Lemma invoke_lambda_twice_none a f arg args c st :
  fn_name f = "<lambda>" ->
  iscoroutinefunction f = false ->
  args = (if (0 <? co_argcount f)%nat then [arg] else []) ->
  py_call f args = returns_none c ->
  silent c -> returns c ->
  exists evs,
    log (snd (invoke_handler a f arg st)) = (log st ++ evs)%list
    /\ invocations a evs = 2.
Proof.
  intros Hn Hc Hargs Hcall Hs Hr.
  assert (Hbody : forall s0, exists e1,
             fst (call a f args s0) = Returned PyNone
             /\ log (snd (call a f args s0)) = (log s0 ++ Invoke a args :: e1)%list
             /\ Forall quiet e1).
  { intros s0. unfold call. rewrite Hcall. unfold returns_none, bind, emit, ret.
    simpl.
    set (s1 := {| reminders := reminders s0; edith_brain := edith_brain s0;
                  readings := readings s0;
                  log := (log s0 ++ [Invoke a args])%list |}).
    destruct (Hs s1) as [e1 [E1 Q1]]. destruct (Hr s1) as [u Hu].
    destruct (c s1) as [[u'|e] s2]; simpl in *; [|discriminate].
    exists e1. repeat split; auto.
    rewrite E1, <- app_assoc. reflexivity. }
  unfold invoke_handler. rewrite Hc, Hn. simpl String.eqb. cbv iota.
  assert (Hgoal : exists evs,
             log (snd (bind (call a f args)
                            (fun probe =>
                               if iscoroutine probe
                               then bind (call a f args) (fun c0 => await c0)
                               else bind (call a f args) (fun _ => ret tt)) st))
             = (log st ++ evs)%list /\ invocations a evs = 2).
  { unfold bind at 1.
    destruct (Hbody st) as [e1 [R1 [L1 Q1]]].
    destruct (call a f args st) as [o1 s1]; simpl in R1, L1. subst o1.
    unfold iscoroutine.
    rewrite (bind_pure_state (call a f args) (fun _ => tt) s1).
    destruct (Hbody s1) as [e2 [R2 [L2 Q2]]].
    exists ((Invoke a args :: e1) ++ Invoke a args :: e2)%list.
    split.
    - rewrite L2, L1, <- app_assoc. reflexivity.
    - rewrite invocations_app. simpl. rewrite String.eqb_refl.
      rewrite !(quiet_invocations a) by assumption. reflexivity. }
  subst args. destruct (0 <? co_argcount f)%nat; exact Hgoal.
Qed.

(** A lambda whose value is a coroutine: the coroutine made for the
    test is dropped, the lambda is called again and that coroutine is
    awaited. *)
Lemma invoke_lambda_twice_coroutine a f arg args c st :
  fn_name f = "<lambda>" ->
  iscoroutinefunction f = false ->
  args = (if (0 <? co_argcount f)%nat then [arg] else []) ->
  py_call f args = coroutine_of c ->
  uninvoking c ->
  exists evs,
    log (snd (invoke_handler a f arg st)) = (log st ++ evs)%list
    /\ invocations a evs = 2.
Proof.
  intros Hn Hc Hargs Hcall Hu.
  unfold invoke_handler. rewrite Hc, Hn. simpl String.eqb. cbv iota.
  assert (Hgoal : exists evs,
             log (snd (bind (call a f args)
                            (fun probe =>
                               if iscoroutine probe
                               then bind (call a f args) (fun c0 => await c0)
                               else bind (call a f args) (fun _ => ret tt)) st))
             = (log st ++ evs)%list /\ invocations a evs = 2).
  { unfold call. rewrite Hcall. unfold coroutine_of, bind, emit, ret. simpl.
    match goal with
    | |- context [c ?s] => destruct (Hu s) as [evs [E Z0]]
    end.
    simpl in E.
    exists (Invoke a args :: Invoke a args :: evs)%list. split.
    - rewrite E, <- !app_assoc. reflexivity.
    - simpl. rewrite String.eqb_refl, Z0. reflexivity. }
  subst args. destruct (0 <? co_argcount f)%nat; exact Hgoal.
Qed.

(** A plain function is called once, whatever it does. *)
Lemma invoke_def_once a f arg args c st :
  fn_name f <> "<lambda>" ->
  iscoroutinefunction f = false ->
  args = (if (0 <? co_argcount f)%nat then [arg] else []) ->
  py_call f args = returns_none c ->
  silent c ->
  exists evs,
    log (snd (invoke_handler a f arg st)) = (log st ++ evs)%list
    /\ invocations a evs = 1.
Proof.
  intros Hn Hc Hargs Hcall Hs.
  unfold invoke_handler. rewrite Hc.
  apply String.eqb_neq in Hn. rewrite Hn.
  assert (Hgoal : exists evs,
             log (snd (bind (call a f args) (fun _ => ret tt) st))
             = (log st ++ evs)%list /\ invocations a evs = 1).
  { rewrite (bind_pure_state (call a f args) (fun _ => tt)).
    unfold call. rewrite Hcall. unfold returns_none, emit.
    unfold bind at 1.
    rewrite (bind_pure_state c (fun _ => PyNone)).
    match goal with
    | |- context [c ?s] => destruct (Hs s) as [evs [E Q]]
    end.
    simpl in E.
    exists (Invoke a args :: evs)%list. split.
    - rewrite E, <- app_assoc. reflexivity.
    - simpl. rewrite String.eqb_refl, (quiet_invocations a Q). reflexivity. }
  subst args. destruct (0 <? co_argcount f)%nat; exact Hgoal.
Qed.

End Router.

Lemma dict_get_In V (d : list (string * V)) k v :
  dict_get d k = Some v -> In k (map fst d).
Proof.
  induction d as [|[k' v'] d IH]; simpl; [discriminate|].
  destruct (String.eqb_spec k k') as [->|_]; auto.
Qed.

Lemma registered_name w a :
  registered w a = true -> In a command_names.
Proof.
  unfold registered. destruct (dict_get (COMMANDS w) a) eqn:E; [|discriminate].
  intros _. apply dict_get_In in E. exact E.
Qed.

(** An [async def] handler is called once and its coroutine awaited. *)
Lemma invoke_async_once a f arg c st :
  iscoroutinefunction f = true ->
  py_call f [arg] = coroutine_of c ->
  uninvoking c ->
  exists evs,
    log (snd (invoke_handler a f arg st)) = (log st ++ evs)%list
    /\ invocations a evs = 1.
Proof.
  intros Hc Hcall Hu. unfold invoke_handler. rewrite Hc.
  unfold call. rewrite Hcall. unfold coroutine_of, bind, emit, ret. simpl.
  match goal with
  | |- context [c ?s] => destruct (Hu s) as [evs [E Z0]]
  end.
  simpl in E. exists (Invoke a [arg] :: evs)%list. split.
  - rewrite E, <- app_assoc. reflexivity.
  - simpl. rewrite String.eqb_refl, Z0. reflexivity.
Qed.

Ltac by_lookup H :=
  erewrite dispatch_state by (rewrite <- H; reflexivity);
  rewrite <- H.

Ltac lambda_none :=
  eapply invoke_lambda_twice_none;
  [ reflexivity | reflexivity | reflexivity
  | simpl; try match goal with E : _ = _ |- _ => rewrite E end; reflexivity
  | auto with frames | auto with frames ].

Ltac lambda_coroutine w :=
  eapply invoke_lambda_twice_coroutine;
  [ reflexivity | reflexivity | reflexivity
  | simpl; try match goal with E : _ = _ |- _ => rewrite E end; reflexivity
  | apply (edith_analyze_uninvoking w) ].

Ltac def_once :=
  eapply invoke_def_once;
  [ discriminate | reflexivity | reflexivity | reflexivity | auto with frames ].

(** C1 (as the code has it). For every line whose first token is a
    registered command name the router calls the handler bound to that
    name and never falls back to the resolver, but the number of calls
    depends on how the handler is written: a handler bound to a lambda
    ([status], [generate], [view], [clear], [set], [exit], [quit],
    [shutdown]) is called twice for the one line, every other handler
    once. *)
Theorem handler_invocation_count (w : World) (line : string) (st : State) :
  registered w (action_of line) = true ->
  exists evs,
    log (snd (dispatch w line st)) = (log st ++ evs)%list
    /\ invocations (action_of line) evs
       = (if str_in (action_of line) lambda_bound then 2 else 1).
Proof.
  intros Hreg. apply registered_name in Hreg.
  unfold command_names in Hreg. simpl in Hreg.
  repeat (destruct Hreg as [Hreg|Hreg]); try contradiction; by_lookup Hreg.
  - (* help *) def_once.
  - (* time *) def_once.
  - (* status *)
    eapply invoke_lambda_twice_none;
      [ reflexivity | reflexivity | reflexivity | | | ].
    + instantiate (1 := bind take_reading (fun n =>
          edith_speak w
            ("Current operational status: **" ++ status_level USER_PROFILE
               ++ "**. All modules are functioning with "
               ++ str_of_nat (if randint_99_100 w n then 100 else 99)
               ++ "% efficiency."))).
      reflexivity.
    + repeat silent_step.
    + repeat returns_step.
  - (* generate *)
    destruct (String.eqb (argument_of line) "report") eqn:E;
      [lambda_none | lambda_coroutine w].
  - (* view *)
    destruct (String.eqb (argument_of line) "tasks") eqn:E;
      [lambda_none | lambda_coroutine w].
  - (* clear *)
    destruct (String.eqb (argument_of line) "tasks") eqn:E;
      [lambda_none | lambda_coroutine w].
  - (* analyze *)
    eapply invoke_async_once;
      [reflexivity | reflexivity | apply (edith_analyze_uninvoking w)].
  - (* weather *) def_once.
  - (* search *) def_once.
  - (* open *) def_once.
  - (* set *)
    destruct (startswith (argument_of line) "task") eqn:E;
      [lambda_none | lambda_coroutine w].
  - (* exit *) lambda_none.
  - (* quit *) lambda_none.
  - (* shutdown *) lambda_none.
Qed.

Lemma handler_invocation_count_witness :
  registered offline_world (action_of "status") = true
  /\ exists evs,
       log (snd (dispatch offline_world "status" (initial_state offline_world)))
       = (log (initial_state offline_world) ++ evs)%list
       /\ invocations "status" evs = 2.
Proof.
  split; [reflexivity|].
  apply (handler_invocation_count offline_world "status"
           (initial_state offline_world)).
  reflexivity.
Defined.

(** ** Reminders through the router *)

(** C2 (as the code has it). Dispatching ["set task buy milk"] appends
    two records with task ["buy milk"] to the reminder store, one for
    each of the two calls the router makes of the [set] lambda; and
    dispatching ["clear tasks"] leaves the store empty. *)
Theorem set_task_buy_milk_stores_two_records (w : World) (st : State) :
  reminders (snd (dispatch w "set task buy milk" st))
  = (reminders st
       ++ [ {| task := "buy milk";
               timestamp := minute_stamp (now w (readings st)) |};
            {| task := "buy milk";
               timestamp := minute_stamp (now w (S (readings st))) |} ])%list
  /\ fst (dispatch w "set task buy milk" st) = Returned Continue
  /\ reminders (snd (dispatch w "clear tasks" st)) = [].
Proof.
  unfold dispatch, invoke_handler, call, edith_speak, print, emit, bind, ret.
  simpl. unfold set_reminder, clear_reminders, edith_speak, read_clock,
    take_reading, get_reminders, set_reminders, print, emit, bind, ret.
  simpl.
  destruct (tts_engine w); simpl.
  - repeat split; [rewrite <- app_assoc; reflexivity|].
    destruct (reminders st); reflexivity.
  - repeat split; [rewrite <- app_assoc; reflexivity|].
    destruct (reminders st); reflexivity.
Qed.

(** The whole scenario on a text console, starting from the empty
    store: the task is listed twice, and after ["clear tasks"] nothing is
    listed. *)
Example buy_milk_session :
  let st0 := initial_state offline_world in
  let run := command_loop offline_world
               [typed "set task buy milk"; typed "view tasks";
                typed "clear tasks"; typed "view tasks"] st0 in
  fst run = Returned AwaitingInput
  /\ reminders (snd run) = []
  /\ filter (fun e => match e with Print _ => true | _ => false end)
            (events_since st0 (snd run))
     = [ Print (nl ++ "[E.D.I.T.H.]: Task **'buy milk'** successfully logged at 2024-01-01 09:00. Priority set to standard.");
         Print (nl ++ "[E.D.I.T.H.]: Task **'buy milk'** successfully logged at 2024-01-01 09:00. Priority set to standard.");
         Print (nl ++ "[E.D.I.T.H.]: Displaying active task log:");
         Print "  1: Logged 2024-01-01 09:00 - **buy milk**";
         Print "  2: Logged 2024-01-01 09:00 - **buy milk**";
         Print (nl ++ "[E.D.I.T.H.]: Displaying active task log:");
         Print "  1: Logged 2024-01-01 09:00 - **buy milk**";
         Print "  2: Logged 2024-01-01 09:00 - **buy milk**";
         Print (nl ++ "[E.D.I.T.H.]: All active tasks have been successfully purged from the log. Memory status: Clear.");
         Print (nl ++ "[E.D.I.T.H.]: Task log is empty. No action required.");
         Print (nl ++ "[E.D.I.T.H.]: No active tasks are currently logged in the memory matrix.");
         Print (nl ++ "[E.D.I.T.H.]: No active tasks are currently logged in the memory matrix.") ].
Proof. vm_compute. repeat split. Qed.

(** C3 (counterexample). On a console whose brain is offline, the line
    ["set"] does not make E.D.I.T.H. report the missing task parameter:
    the [set] lambda hands the text ["set "] to the response resolver. *)
Lemma set_alone_reports_no_missing_parameter :
  reports_missing_parameter
    (events_since offline_start (snd (dispatch offline_world "set" offline_start)))
  = false
  /\ resolver_inputs
       (events_since offline_start (snd (dispatch offline_world "set" offline_start)))
     = ["set "]
  /\ printed (nl ++ "[E.D.I.T.H.]: " ++ offline_message)
       (events_since offline_start (snd (dispatch offline_world "set" offline_start)))
     = true.
Proof. vm_compute. repeat split. Qed.

Lemma dispatch_set_alone w st :
  dispatch w "set" st
  = bind (edith_analyze w "set ") (fun _ => ret Continue)
         (add_events (add_events st [Invoke "set" [""]]) [Invoke "set" [""]]).
Proof. reflexivity. Qed.

(** C3 (amended). The [set] handler tests whether its argument starts
    with ["task"]. For the line ["set"] the argument is empty, so the
    handler passes ["set "] to the response resolver; the router does not
    raise and the reminder store is unchanged. The missing-parameter
    report is what the line ["set task"] produces, again with the store
    unchanged. *)
Theorem set_needs_the_task_word (w : World) (st : State) :
  (fst (dispatch w "set" st) = Returned Continue
   /\ reminders (snd (dispatch w "set" st)) = reminders st
   /\ exists evs,
        log (snd (dispatch w "set" st)) = (log st ++ evs)%list
        /\ resolver_inputs evs = ["set "])
  /\
  (fst (dispatch w "set task" st) = Returned Continue
   /\ reminders (snd (dispatch w "set task" st)) = reminders st
   /\ exists evs,
        log (snd (dispatch w "set task" st)) = (log st ++ evs)%list
        /\ reports_missing_parameter evs = true
        /\ resolver_inputs evs = []).
Proof.
  split.
  - rewrite dispatch_set_alone.
    set (st2 := add_events (add_events st _) _).
    pose proof (returns_edith_analyze w "set " st2) as [u Hu].
    pose proof (keeps_edith_analyze w "set " st2) as Hk.
    destruct (edith_analyze_log w "set " st2) as [evs [E Q]].
    unfold bind, ret.
    destruct (edith_analyze w "set " st2) as [[u'|e] st3]; simpl in *;
      [|discriminate].
    repeat split; [exact Hk|].
    exists (Invoke "set" [""] :: Invoke "set" [""] :: Analyze "set " :: evs)%list.
    split.
    + rewrite E, <- !app_assoc. reflexivity.
    + simpl. rewrite (quiet_resolver_inputs Q). reflexivity.
  - unfold dispatch, invoke_handler, call, print, emit, bind, ret. simpl.
    unfold set_reminder, edith_speak, print, emit, bind, ret. simpl.
    destruct (tts_engine w); simpl; repeat split; eexists;
      (split; [rewrite <- !app_assoc; reflexivity | split; reflexivity]).
Qed.

(** ** The loop *)

Unset Implicit Arguments.

Lemma loop_body_dispatches w s st line st1 :
  listen_for_command w s st = (Returned line, st1) ->
  truthy line = true ->
  loop_body w s st
  = try_except (dispatch w line)
      (fun e =>
         bind (print ("An unhandled critical error occurred: " ++ exc_str e))
              (fun _ => bind (edith_speak w "Critical system failure. Contact support.")
                             (fun _ => ret Break)))
      st1.
Proof.
  intros H Ht. unfold loop_body, try_except at 1, bind at 1.
  rewrite H, Ht. reflexivity.
Qed.

Lemma terminal_action_nonempty line :
  In (action_of line) terminal_names -> truthy line = true.
Proof.
  destruct line; [|reflexivity].
  unfold action_of, terminal_names. simpl. intuition discriminate.
Qed.

Lemma dispatch_terminal w line st :
  In (action_of line) terminal_names ->
  exists st2, dispatch w line st = (Returned Break, st2).
Proof.
  intros H. unfold terminal_names in H. simpl in H.
  repeat (destruct H as [H|H]); try contradiction;
    (erewrite dispatch_registered by (rewrite <- H; reflexivity));
    rewrite <- H;
    unfold invoke_handler, call, returns_none, emit, bind, ret; simpl;
    repeat (rewrite edith_speak_run; simpl); eexists; reflexivity.
Qed.

(** C4. When the line that was acquired is not empty and its first token
    is not a key of [COMMANDS], the turn of the loop is one run of the
    response resolver on the whole line, unchanged: the resolver ran on
    exactly that text, no handler was invoked, and the loop goes on. *)
Theorem unregistered_line_goes_to_resolver
        (w : World) (s : Stimulus) (st : State) (line : string) (st1 : State) :
  listen_for_command w s st = (Returned line, st1) ->
  truthy line = true ->
  registered w (action_of line) = false ->
  loop_body w s st = (Returned Continue, snd (edith_analyze w line st1))
  /\ exists evs,
       log (snd (loop_body w s st)) = (log st1 ++ evs)%list
       /\ resolver_inputs evs = [line]
       /\ forall a, invocations a evs = 0.
Proof.
  intros Hl Ht Hr.
  assert (E : loop_body w s st = (Returned Continue, snd (edith_analyze w line st1))).
  { rewrite (loop_body_dispatches _ _ _ _ _ Hl Ht).
    unfold try_except. rewrite (dispatch_unregistered w line Hr).
    unfold bind, ret.
    destruct (returns_edith_analyze w line st1) as [u Hu].
    destruct (edith_analyze w line st1) as [[u'|e] st2]; simpl in *;
      [reflexivity | discriminate]. }
  split; [exact E|].
  rewrite E. simpl.
  destruct (edith_analyze_log w line st1) as [evs [L Q]].
  exists (Analyze line :: evs). split; [exact L|]. split.
  - simpl. rewrite (quiet_resolver_inputs Q). reflexivity.
  - intros a. simpl. apply quiet_invocations, Q.
Qed.

Lemma unregistered_line_goes_to_resolver_witness :
  listen_for_command offline_world (typed "Tell me about quantum gravity")
    offline_start
  = (Returned "tell me about quantum gravity",
     heard offline_world (typed "Tell me about quantum gravity") offline_start)
  /\ truthy "tell me about quantum gravity" = true
  /\ registered offline_world (action_of "tell me about quantum gravity") = false
  /\ loop_body offline_world (typed "Tell me about quantum gravity") offline_start
     = (Returned Continue,
        snd (edith_analyze offline_world "tell me about quantum gravity"
               (heard offline_world (typed "Tell me about quantum gravity")
                      offline_start))).
Proof.
  split; [reflexivity|]. split; [reflexivity|]. split; [reflexivity|].
  apply (unregistered_line_goes_to_resolver
           offline_world (typed "Tell me about quantum gravity") offline_start
           "tell me about quantum gravity"
           (heard offline_world (typed "Tell me about quantum gravity")
                  offline_start));
    reflexivity.
Defined.

(** C8. When the first token of the acquired line is [exit], [quit] or
    [shutdown], the router returns from the handler with [break]: the loop
    ends in the state the dispatch of that line left, and the stimuli
    that follow are never consulted. *)
Theorem terminal_command_stops_loop
        (w : World) (s : Stimulus) (rest : list Stimulus)
        (st : State) (line : string) (st1 : State) :
  listen_for_command w s st = (Returned line, st1) ->
  In (action_of line) terminal_names ->
  dispatch w line st1 = (Returned Break, snd (dispatch w line st1))
  /\ command_loop w (s :: rest) st
     = (Returned (Stopped rest), snd (dispatch w line st1)).
Proof.
  intros Hl Ha.
  destruct (dispatch_terminal w line st1 Ha) as [st2 Hd].
  rewrite Hd. simpl. split; [reflexivity|].
  unfold bind at 1.
  rewrite (loop_body_dispatches _ _ _ _ _ Hl (terminal_action_nonempty _ Ha)).
  unfold try_except. rewrite Hd. reflexivity.
Qed.

Lemma terminal_command_stops_loop_witness :
  listen_for_command offline_world (typed "Exit now") offline_start
  = (Returned "exit now", heard offline_world (typed "Exit now") offline_start)
  /\ In (action_of "exit now") terminal_names
  /\ command_loop offline_world [typed "Exit now"; typed "help"] offline_start
     = (Returned (Stopped [typed "help"]),
        snd (dispatch offline_world "exit now"
               (heard offline_world (typed "Exit now") offline_start))).
Proof.
  split; [reflexivity|]. split; [left; reflexivity|].
  apply (terminal_command_stops_loop
           offline_world (typed "Exit now") [typed "help"] offline_start
           "exit now"
           (heard offline_world (typed "Exit now") offline_start)).
  - reflexivity.
  - left; reflexivity.
Defined.

(** C9. When the acquired line is empty the turn of the loop does
    nothing more: the state is the one [listen_for_command] left, in which
    no handler was invoked and the resolver did not run, and the loop
    goes on to the next stimulus. *)
Theorem empty_line_is_ignored
        (w : World) (s : Stimulus) (rest : list Stimulus) (st st1 : State) :
  listen_for_command w s st = (Returned "", st1) ->
  loop_body w s st = (Returned Continue, st1)
  /\ command_loop w (s :: rest) st = command_loop w rest st1
  /\ exists evs,
       log st1 = (log st ++ evs)%list
       /\ resolver_inputs evs = []
       /\ forall a, invocations a evs = 0.
Proof.
  intros Hl.
  assert (E : loop_body w s st = (Returned Continue, st1)).
  { unfold loop_body, try_except, bind at 1. rewrite Hl. reflexivity. }
  split; [exact E|]. split.
  - simpl. unfold bind at 1. rewrite E. reflexivity.
  - destruct (silent_listen_for_command w s st) as [evs [L Q]].
    rewrite Hl in L. simpl in L.
    exists evs. split; [exact L|]. split.
    + apply quiet_resolver_inputs, Q.
    + intros a. apply quiet_invocations, Q.
Qed.

Lemma empty_line_is_ignored_witness :
  listen_for_command offline_world (typed "   ") offline_start
  = (Returned "", heard offline_world (typed "   ") offline_start)
  /\ command_loop offline_world [typed "   "; typed "help"] offline_start
     = command_loop offline_world [typed "help"]
         (heard offline_world (typed "   ") offline_start).
Proof.
  split; [reflexivity|].
  apply (empty_line_is_ignored offline_world (typed "   ") [typed "help"]
           offline_start (heard offline_world (typed "   ") offline_start)).
  reflexivity.
Defined.

(** ** The response resolver *)

(** The first match of a rule list is the reply of the earliest rule
    whose trigger occurs in the input. *)
Lemma first_match_earliest rules x i ri :
  nth_error rules i = Some ri ->
  rule_matches ri x = true ->
  exists k rk,
    k <= i
    /\ nth_error rules k = Some rk
    /\ rule_matches rk x = true
    /\ (forall k' r', k' < k -> nth_error rules k' = Some r' ->
                      rule_matches r' x = false)
    /\ first_match rules x = Some (snd rk).
Proof.
  revert i. induction rules as [|r rules IH]; intros i Hi Hm.
  - destruct i; discriminate.
  - simpl. destruct (rule_matches r x) eqn:Hr.
    + exists 0, r. repeat split; auto; try lia.
    + destruct i as [|i]; simpl in Hi.
      * injection Hi as ->. congruence.
      * destruct (IH i Hi Hm) as [k [rk [Hle [Hk [Hmk [Hbefore Hf]]]]]].
        exists (S k), rk. repeat split; auto; try lia.
        intros [|k'] r' Hlt Hn; simpl in Hn.
        -- injection Hn as <-. exact Hr.
        -- apply (Hbefore k' r'); [lia | exact Hn].
Qed.

Lemma rule_replies_distinct : NoDup (map snd RULES).
Proof.
  unfold RULES. simpl.
  repeat (constructor; [simpl; intuition discriminate |]).
  constructor.
Qed.

Lemma later_rule_reply_differs k j rk rj :
  k < j ->
  nth_error RULES k = Some rk ->
  nth_error RULES j = Some rj ->
  snd rj <> snd rk.
Proof.
  intros Hlt Hk Hj Heq.
  assert (Hk' : nth_error (map snd RULES) k = Some (snd rk))
    by (rewrite nth_error_map, Hk; reflexivity).
  assert (Hj' : nth_error (map snd RULES) j = Some (snd rj))
    by (rewrite nth_error_map, Hj; reflexivity).
  rewrite Heq in Hj'.
  assert (Hlen : k < length (map snd RULES))
    by (apply nth_error_Some; rewrite Hk'; discriminate).
  pose proof (proj1 (NoDup_nth_error (map snd RULES)) rule_replies_distinct
                    k j Hlen) as Hinj.
  rewrite Hk', Hj' in Hinj. specialize (Hinj eq_refl). lia.
Qed.

Ltac split_rules H :=
  cbv [first_match RULES rule_matches fst snd] in H;
  repeat match type of H with
         | (if ?b then _ else _) = _ => destruct b eqn:?
         end.

(** When the rule list has a match, [edith_analyze] speaks that reply
    and does nothing else. *)
Lemma edith_analyze_canned w x st reply :
  first_match RULES (lower x) = Some reply ->
  edith_analyze w x st
  = (Returned tt, add_events st (Analyze x :: spoken w reply)).
Proof.
  intros H. unfold edith_analyze. split_rules H; try discriminate;
    injection H as <-;
    unfold bind, emit, ret; simpl; rewrite edith_speak_run;
    unfold add_events; simpl; rewrite <- app_assoc; reflexivity.
Qed.

(** When no rule matches, [edith_analyze] is the [try] around [think]
    followed by [edith_speak]. *)
Lemma edith_analyze_fallback w x st :
  first_match RULES (lower x) = None ->
  edith_analyze w x st
  = bind (try_except (think x)
            (fun e => bind (print ("Error in edith_analyze: " ++ exc_str e))
                           (fun _ => ret (generation_failure_message e))))
         (fun response => edith_speak w response)
         (add_events st [Analyze x]).
Proof.
  intros H. unfold edith_analyze. split_rules H; try discriminate.
  reflexivity.
Qed.

(** C5. The rules are tried in their fixed order and the first match
    wins: whenever the trigger of some rule [i] occurs in the lower-cased
    input, the reply is that of the earliest matching rule [k <= i], which
    differs from the reply of every rule after [k]; and that canned reply
    is all that happens: the brain is not consulted and its state is
    unchanged. *)
Theorem first_matching_rule_wins
        (w : World) (st : State) (x : string)
        (i : nat) (ri : list string * string) :
  nth_error RULES i = Some ri ->
  rule_matches ri (lower x) = true ->
  exists k rk,
    k <= i
    /\ nth_error RULES k = Some rk
    /\ rule_matches rk (lower x) = true
    /\ (forall k' r', k' < k -> nth_error RULES k' = Some r' ->
                      rule_matches r' (lower x) = false)
    /\ (forall j rj, k < j -> nth_error RULES j = Some rj -> snd rj <> snd rk)
    /\ edith_analyze w x st
       = (Returned tt, add_events st (Analyze x :: spoken w (snd rk)))
    /\ Forall not_generative (Analyze x :: spoken w (snd rk)).
Proof.
  intros Hi Hm.
  destruct (first_match_earliest RULES (lower x) i ri Hi Hm)
    as [k [rk [Hle [Hk [Hmk [Hbefore Hf]]]]]].
  exists k, rk. repeat split; auto.
  - intros j rj Hlt Hj. exact (later_rule_reply_differs k j rk rj Hlt Hk Hj).
  - apply edith_analyze_canned, Hf.
  - constructor; [exact I | apply spoken_not_generative].
Qed.

Lemma first_matching_rule_wins_witness :
  nth_error RULES 4 = Some (["inspire me"; "motivate"; "positive"],
     "Your current trajectory is optimal. Maintain focus on complex problem-solving. Success is the logical result of persistent effort.")
  /\ rule_matches (["inspire me"; "motivate"; "positive"],
     "Your current trajectory is optimal. Maintain focus on complex problem-solving. Success is the logical result of persistent effort.")
       (lower "How are you? Motivate me") = true
  /\ edith_analyze offline_world "How are you? Motivate me" offline_start
     = (Returned tt,
        add_events offline_start
          (Analyze "How are you? Motivate me"
             :: spoken offline_world
                  "My core systems are operating within defined parameters. I am fully engaged and ready for high-level information processing.")).
Proof.
  split; [reflexivity|]. split; [reflexivity|].
  destruct (first_matching_rule_wins offline_world offline_start
              "How are you? Motivate me" 4 _ eq_refl eq_refl)
    as [k [rk [Hle [Hk [Hmk [Hbefore [Hlater [Hrun Hgen]]]]]]]].
  destruct k as [|k].
  - simpl in Hk. injection Hk as <-. exact Hrun.
  - specialize (Hbefore 0 _ (Nat.lt_0_succ k) eq_refl).
    vm_compute in Hbefore. discriminate Hbefore.
Defined.

(** ** The generative path *)

Ltac same_state :=
  unfold add_events; simpl; rewrite <- ?app_assoc; simpl; reflexivity.

Lemma think_offline x st :
  is_ready (edith_brain st) = false ->
  think x st = (Returned offline_message, add_events st [Think x]).
Proof.
  unfold is_ready, think, bind, emit, get_brain, ret. simpl.
  destruct (tokenizer (edith_brain st)), (model (edith_brain st));
    intros H; try discriminate; reflexivity.
Qed.

Lemma generate_call_ready st x o :
  generate_call st x = Some o -> is_ready (edith_brain st) = true.
Proof.
  unfold generate_call, is_ready.
  destruct (tokenizer (edith_brain st)), (model (edith_brain st));
    intros H; try discriminate; reflexivity.
Qed.

Lemma think_generate_raises x st e :
  generate_call st x = Some (Raised e) ->
  exists ids, think x st = (Raised e, add_events st [Think x; Generate ids]).
Proof.
  unfold generate_call, think, bind, emit, get_brain, lift, ret. simpl.
  destruct (tokenizer (edith_brain st)) as [tok|]; [|discriminate].
  destruct (model (edith_brain st)) as [mdl|]; [|discriminate].
  destruct (encode tok (x ++ eos_token tok)) as [new_ids|]; [|discriminate].
  intros H. injection H as H. rewrite H.
  eexists. unfold add_events. simpl. rewrite <- app_assoc. reflexivity.
Qed.

Lemma think_history x st :
  chat_history_ids (edith_brain (snd (think x st)))
    <> chat_history_ids (edith_brain st) ->
  exists ids,
    generate_call st x = Some (Returned ids)
    /\ chat_history_ids (edith_brain (snd (think x st))) = Some ids.
Proof.
  unfold generate_call, think, bind, emit, get_brain, lift, ret,
    set_chat_history_ids. simpl.
  destruct (tokenizer (edith_brain st)) as [tok|]; simpl;
    [|intros H; contradiction H; reflexivity].
  destruct (model (edith_brain st)) as [mdl|]; simpl;
    [|intros H; contradiction H; reflexivity].
  destruct (encode tok (x ++ eos_token tok)) as [new_ids|]; simpl;
    [|intros H; contradiction H; reflexivity].
  match goal with
  | |- context [generate mdl ?b] => destruct (generate mdl b) as [ids|] eqn:G
  end; simpl; [|intros H; contradiction H; reflexivity].
  intros _. exists ids. split; [reflexivity|].
  match goal with
  | |- context [decode tok ?t] => destruct (decode tok t)
  end; reflexivity.
Qed.

Lemma failure_message_is_not_offline_message e :
  generation_failure_message e <> offline_message.
Proof. unfold generation_failure_message, offline_message. simpl. discriminate. Qed.

(** C6. When no rule matches, the resolver never raises to its caller,
    and its two failure reports differ: with a brain that failed to load
    it speaks the fixed offline message; when [model.generate] raises [e]
    it speaks the inference-error message that ends in [str(e)], which is
    never the offline message. *)
Theorem generative_failures_are_reported_distinctly
        (w : World) (st : State) (x : string) :
  first_match RULES (lower x) = None ->
  fst (edith_analyze w x st) = Returned tt
  /\ (is_ready (edith_brain st) = false ->
      edith_analyze w x st
      = (Returned tt,
         add_events st ([Analyze x; Think x] ++ spoken w offline_message)))
  /\ (forall e,
        generate_call st x = Some (Raised e) ->
        is_ready (edith_brain st) = true
        /\ exists ids,
             edith_analyze w x st
             = (Returned tt,
                add_events st
                  ([Analyze x; Think x; Generate ids;
                    Print ("Error in edith_analyze: " ++ exc_str e)]
                     ++ spoken w (generation_failure_message e))))
  /\ (forall e, generation_failure_message e <> offline_message).
Proof.
  intros Hnone. split; [|split; [|split]].
  - destruct (returns_edith_analyze w x st) as [[] Hu]. exact Hu.
  - intros Hoff. rewrite (edith_analyze_fallback w x st Hnone).
    unfold bind, try_except.
    rewrite (think_offline x (add_events st [Analyze x]) Hoff).
    rewrite edith_speak_run. f_equal. same_state.
  - intros e Hgen. split; [exact (generate_call_ready st x _ Hgen)|].
    destruct (think_generate_raises x (add_events st [Analyze x]) e Hgen)
      as [ids Hth].
    exists ids. rewrite (edith_analyze_fallback w x st Hnone).
    unfold bind, try_except. rewrite Hth.
    unfold print, emit, ret. rewrite edith_speak_run. f_equal. same_state.
  - exact failure_message_is_not_offline_message.
Qed.

Lemma generative_failures_are_reported_distinctly_witness :
  first_match RULES (lower "tell me about quantum gravity") = None
  /\ generate_call (initial_state (loaded_world failing_model))
       "tell me about quantum gravity"
     = Some (Raised (mkExc "RuntimeError" "CUDA out of memory"))
  /\ is_ready (edith_brain offline_start) = false
  /\ edith_analyze offline_world "tell me about quantum gravity" offline_start
     = (Returned tt,
        add_events offline_start
          ([Analyze "tell me about quantum gravity";
            Think "tell me about quantum gravity"]
             ++ spoken offline_world offline_message))
  /\ exists ids,
       edith_analyze (loaded_world failing_model)
         "tell me about quantum gravity"
         (initial_state (loaded_world failing_model))
       = (Returned tt,
          add_events (initial_state (loaded_world failing_model))
            ([Analyze "tell me about quantum gravity";
              Think "tell me about quantum gravity"; Generate ids;
              Print "Error in edith_analyze: CUDA out of memory"]
               ++ spoken (loaded_world failing_model)
                    "A critical error occurred during AI inference: CUDA out of memory")).
Proof.
  split; [reflexivity|]. split; [reflexivity|]. split; [reflexivity|]. split.
  - apply (generative_failures_are_reported_distinctly
             offline_world offline_start "tell me about quantum gravity"
             eq_refl).
    reflexivity.
  - apply (proj1 (proj2 (proj2
             (generative_failures_are_reported_distinctly
                (loaded_world failing_model)
                (initial_state (loaded_world failing_model))
                "tell me about quantum gravity" eq_refl)))
             (mkExc "RuntimeError" "CUDA out of memory")).
    reflexivity.
Defined.

(** C10. If the [model.generate] call of [think] raises, [think] raises
    and the whole brain, [chat_history_ids] included, is as before, also
    after [edith_analyze] has reported the failure; and whenever a call of
    [think] does change [chat_history_ids], the generation returned and
    the new history is what it returned. *)
Theorem failed_generation_keeps_history
        (w : World) (st : State) (x : string) :
  (forall e,
     generate_call st x = Some (Raised e) ->
     fst (think x st) = Raised e
     /\ edith_brain (snd (think x st)) = edith_brain st
     /\ edith_brain (snd (edith_analyze w x st)) = edith_brain st)
  /\ (chat_history_ids (edith_brain (snd (think x st)))
        <> chat_history_ids (edith_brain st) ->
      exists ids,
        generate_call st x = Some (Returned ids)
        /\ chat_history_ids (edith_brain (snd (think x st))) = Some ids).
Proof.
  split; [|apply think_history].
  intros e Hgen.
  destruct (think_generate_raises x st e Hgen) as [ids Hth].
  rewrite Hth. simpl. repeat split.
  destruct (first_match RULES (lower x)) as [reply|] eqn:Hm.
  - rewrite (edith_analyze_canned w x st reply Hm). reflexivity.
  - destruct (think_generate_raises x (add_events st [Analyze x]) e Hgen)
      as [ids' Hth'].
    rewrite (edith_analyze_fallback w x st Hm).
    unfold bind, try_except. rewrite Hth'.
    unfold print, emit, ret. rewrite edith_speak_run. reflexivity.
Qed.

Lemma failed_generation_keeps_history_witness :
  generate_call (initial_state (loaded_world failing_model)) "hello there"
  = Some (Raised (mkExc "RuntimeError" "CUDA out of memory"))
  /\ fst (think "hello there" (initial_state (loaded_world failing_model)))
     = Raised (mkExc "RuntimeError" "CUDA out of memory")
  /\ edith_brain
       (snd (think "hello there" (initial_state (loaded_world failing_model))))
     = edith_brain (initial_state (loaded_world failing_model))
  /\ edith_brain
       (snd (edith_analyze (loaded_world failing_model) "hello there"
               (initial_state (loaded_world failing_model))))
     = edith_brain (initial_state (loaded_world failing_model)).
Proof.
  split; [reflexivity|].
  apply (failed_generation_keeps_history
           (loaded_world failing_model)
           (initial_state (loaded_world failing_model)) "hello there").
  reflexivity.
Defined.

(** ** The opener *)

(** Every entry of [PROGRAMS] is a non-empty command. *)
Lemma program_for_truthy w target cmd :
  program_for w target = Some cmd -> truthy cmd = true.
Proof.
  unfold program_for, PROGRAMS. simpl.
  repeat (match goal with
          | |- context [String.eqb ?a ?b] => destruct (String.eqb a b)
          end; simpl);
    intros H; first [discriminate H | injection H as <-; reflexivity].
Qed.

Lemma popen_run w args st :
  popen w args st
  = (match subprocess_Popen w args with
     | Some e => Raised e
     | None => Returned tt
     end, add_events st [Popen args]).
Proof.
  unfold popen, bind, emit, raise, ret. simpl.
  destruct (subprocess_Popen w args); reflexivity.
Qed.

Lemma launch_popen w cmd :
  (if String.eqb (lower (platform_system w)) "darwin"
   then popen w (PopenArgv ["open"; "-a"; cmd])
   else popen w (PopenShell cmd))
  = popen w (launch_args w cmd).
Proof.
  unfold launch_args.
  destruct (String.eqb (lower (platform_system w)) "darwin"); reflexivity.
Qed.

Lemma open_application_run w target st :
  open_application w target st
  = (Returned tt,
     add_events st
       (match program_for w target with
        | Some cmd =>
            spoken w ("Attempting to interface with local application: **"
                        ++ target ++ "**.")
              ++ Popen (launch_args w cmd)
              :: spoken w
                   (match subprocess_Popen w (launch_args w cmd) with
                    | None => "Affirmative. Opening " ++ target ++ "."
                    | Some e =>
                        "A critical error occurred while opening "
                          ++ target ++ ": " ++ exc_str e
                    end)
        | None =>
            spoken w ("I don't have a configuration for the application '"
                        ++ target ++ "'.")
        end)%list).
Proof.
  unfold open_application. cbv zeta. fold (program_for w target).
  destruct (program_for w target) as [cmd|] eqn:Hp;
    [|apply edith_speak_run].
  rewrite (program_for_truthy w target cmd Hp).
  rewrite (launch_popen w cmd).
  unfold bind at 1. rewrite edith_speak_run.
  unfold try_except, bind. rewrite popen_run.
  destruct (subprocess_Popen w (launch_args w cmd));
    rewrite edith_speak_run; f_equal; same_state.
Qed.

(** C7. A target that contains a dot goes to the browser, as it is when
    it starts with [http] and behind [https://] otherwise, and no
    application is launched; a target without a dot is looked up in the
    table of [PROGRAMS] for the operating system and either launched or
    reported as not configured, and the browser is not used. The line
    ["open example.com"] opens the browser at [https://example.com]. *)
Theorem opener_disambiguates_by_dot (w : World) (st : State) (target : string) :
  (contains target "." = true ->
   snd (open_target w target st)
   = add_events st
       (spoken w ("Executing web traversal to **" ++ target ++ "**.")
          ++ [BrowserOpen (url_of_target target)])%list)
  /\ (contains target "." = false ->
      open_target w target st
      = (Returned tt,
         add_events st
           (match program_for w target with
            | Some cmd =>
                spoken w ("Attempting to interface with local application: **"
                            ++ target ++ "**.")
                  ++ Popen (launch_args w cmd)
                  :: spoken w
                       (match subprocess_Popen w (launch_args w cmd) with
                        | None => "Affirmative. Opening " ++ target ++ "."
                        | Some e =>
                            "A critical error occurred while opening "
                              ++ target ++ ": " ++ exc_str e
                        end)
            | None =>
                spoken w ("I don't have a configuration for the application '"
                            ++ target ++ "'.")
            end)%list))
  /\ snd (dispatch w "open example.com" st)
     = add_events st
         (Invoke "open" ["example.com"]
            :: spoken w "Executing web traversal to **example.com**."
            ++ [BrowserOpen "https://example.com"])%list.
Proof.
  assert (Hweb : forall t s0,
             snd (open_website w t s0)
             = add_events s0
                 (spoken w ("Executing web traversal to **" ++ t ++ "**.")
                    ++ [BrowserOpen (url_of_target t)])%list).
  { intros t s0. unfold open_website, bind at 1. rewrite edith_speak_run.
    unfold browser_open, url_of_target, bind, emit, ret, raise. simpl.
    destruct (startswith t "http"); simpl;
      match goal with
      | |- context [webbrowser_open w ?u] => destruct (webbrowser_open w u)
      end; same_state. }
  split; [|split].
  - intros Hdot. unfold open_target. rewrite Hdot. apply Hweb.
  - intros Hdot. unfold open_target. rewrite Hdot.
    apply open_application_run.
  - erewrite dispatch_state by reflexivity.
    unfold invoke_handler.
    cbn [iscoroutinefunction def1 fn_name co_argcount String.eqb Ascii.eqb
         Bool.eqb Nat.ltb Nat.leb].
    change (action_of "open example.com") with "open".
    change (argument_of "open example.com") with "example.com".
    rewrite (bind_pure_state (call "open" _ _) (fun _ => tt)).
    unfold call, bind at 1, emit. cbn [py_call def1].
    rewrite (bind_pure_state (open_target w "example.com") (fun _ => PyNone)).
    unfold open_target.
    change (contains "example.com" ".") with true. cbv iota.
    rewrite Hweb. same_state.
Qed.

Lemma opener_disambiguates_by_dot_witness :
  contains "example.com" "." = true
  /\ contains "calculator" "." = false
  /\ snd (open_target offline_world "example.com" offline_start)
     = add_events offline_start
         [Print (nl ++ "[E.D.I.T.H.]: Executing web traversal to **example.com**.");
          BrowserOpen "https://example.com"]
  /\ open_target offline_world "calculator" offline_start
     = (Returned tt,
        add_events offline_start
          [Print (nl ++ "[E.D.I.T.H.]: Attempting to interface with local application: **calculator**.");
           Popen (PopenShell "gnome-calculator");
           Print (nl ++ "[E.D.I.T.H.]: Affirmative. Opening calculator.")]).
Proof.
  split; [reflexivity|]. split; [reflexivity|]. split.
  - apply (proj1 (opener_disambiguates_by_dot offline_world offline_start
                    "example.com")).
    reflexivity.
  - apply (proj1 (proj2 (opener_disambiguates_by_dot offline_world
                           offline_start "calculator"))).
    reflexivity.
Defined.

(** ** Text that the router and the input adapter handle *)

Lemma startswith_drop s p :
  startswith s p = true -> s = p ++ drop (String.length p) s.
Proof.
  revert s. induction p as [|b p IH]; intros s H; simpl in *.
  - destruct s; reflexivity.
  - destruct s as [|a s]; [discriminate|].
    apply andb_prop in H. destruct H as [Hab Hs].
    apply Ascii.eqb_eq in Hab. subst b.
    simpl. f_equal. apply IH, Hs.
Qed.

Lemma contains_cons c t sub :
  contains (String c t) sub = startswith (String c t) sub || contains t sub.
Proof. reflexivity. Qed.

Lemma split1_cons sep c t :
  split1 sep (String c t)
  = if startswith (String c t) sep
    then [EmptyString; drop (String.length sep) (String c t)]
    else match split1 sep t with
         | [] => [String c EmptyString]
         | h :: rest => String c h :: rest
         end.
Proof. reflexivity. Qed.

Lemma split1_shape sep s :
  (contains s sep = false /\ split1 sep s = [s])
  \/ (contains s sep = true
      /\ exists a b, split1 sep s = [a; b] /\ s = a ++ sep ++ b).
Proof.
  induction s as [|c t IH].
  - destruct sep as [|d sep].
    + right. split; [reflexivity|]. exists "", "". split; reflexivity.
    + left. split; reflexivity.
  - rewrite contains_cons, split1_cons.
    destruct (startswith (String c t) sep) eqn:Hs.
    + right. split; [reflexivity|].
      exists "", (drop (String.length sep) (String c t)).
      split; [reflexivity|]. apply startswith_drop, Hs.
    + simpl orb.
      destruct IH as [[Hc Hp]|[Hc [a [b [Hp He]]]]].
      * left. rewrite Hp. split; [exact Hc | reflexivity].
      * right. rewrite Hp. split; [exact Hc|].
        exists (String c a), b. split; [reflexivity|].
        simpl. rewrite <- He. reflexivity.
Qed.

Lemma startswith_empty s : startswith s "" = true.
Proof. destruct s; reflexivity. Qed.

Lemma startswith_char c t d :
  startswith (String c t) (String d "") = Ascii.eqb c d.
Proof. simpl. rewrite startswith_empty. apply andb_true_r. Qed.

Lemma action_has_no_space line : contains (action_of line) " " = false.
Proof.
  unfold action_of. induction line as [|c t IH]; [reflexivity|].
  rewrite split1_cons, startswith_char.
  destruct (Ascii.eqb c " ") eqn:Hc; [reflexivity|].
  destruct (split1 " " t) as [|h rest] eqn:Hs; simpl nth in *;
    rewrite contains_cons, startswith_char, Hc; [reflexivity | exact IH].
Qed.

(** X1. The router's split loses nothing: the action holds no space;
    a line with a space is its action, one space and its argument; a line
    without a space is its own action and the argument is empty. *)
Theorem router_split_recovers_line (line : string) :
  contains (action_of line) " " = false
  /\ (if contains line " "
      then line = action_of line ++ " " ++ argument_of line
      else action_of line = line /\ argument_of line = "").
Proof.
  split; [apply action_has_no_space|].
  unfold action_of, argument_of.
  destruct (split1_shape " " line) as [[Hc Hp]|[Hc [a [b [Hp He]]]]];
    rewrite Hc, Hp; simpl.
  - split; reflexivity.
  - exact He.
Qed.






Lemma rstrip_idem s : rstrip (rstrip s) = rstrip s.
Proof.
  induction s as [|c t IH]; simpl; [reflexivity|].
  destruct (rstrip t) as [|d u] eqn:Ht.
  - destruct (is_space c) eqn:Hc; simpl; [reflexivity|].
    rewrite Hc. reflexivity.
  - change (rstrip (String c (String d u)))
      with (match rstrip (String d u) with
            | EmptyString =>
                if is_space c then EmptyString else String c EmptyString
            | String x y => String c (String x y)
            end).
    rewrite IH. reflexivity.
Qed.

Lemma lstrip_rstrip_lstrip s : lstrip (rstrip (lstrip s)) = rstrip (lstrip s).
Proof.
  induction s as [|c t IH]; simpl; [reflexivity|].
  destruct (is_space c) eqn:Hc; [exact IH|].
  simpl. destruct (rstrip t); rewrite ?Hc; simpl; rewrite Hc; reflexivity.
Qed.

Lemma strip_idem s : strip (strip s) = strip s.
Proof.
  unfold strip. rewrite lstrip_rstrip_lstrip. apply rstrip_idem.
Qed.


(** ** The input adapter *)




Lemma listen_speech_failed w s st :
  VOICE_ENABLED w = true ->
  speech_failed (microphone s) = true ->
  fst (listen_for_command w s st) = Returned ""
  /\ reminders (snd (listen_for_command w s st)) = reminders st
  /\ edith_brain (snd (listen_for_command w s st)) = edith_brain st.
Proof.
  intros Hv Hf. unfold listen_for_command. rewrite Hv. simpl.
  destruct (microphone s); try discriminate Hf;
    unfold print, emit, bind, ret; simpl;
    rewrite ?edith_speak_run; repeat split.
Qed.

(** X3. On the voice console a turn in which no speech is detected, the
    audio is not understood or the recognition service fails is a turn
    without a command: the loop goes on, no handler is invoked, the
    resolver does not run, and the reminders and the brain are as
    before. *)
Theorem speech_failure_is_no_command
        (w : World) (s : Stimulus) (rest : list Stimulus) (st : State) :
  VOICE_ENABLED w = true ->
  speech_failed (microphone s) = true ->
  fst (loop_body w s st) = Returned Continue
  /\ command_loop w (s :: rest) st
     = command_loop w rest (snd (loop_body w s st))
  /\ reminders (snd (loop_body w s st)) = reminders st
  /\ edith_brain (snd (loop_body w s st)) = edith_brain st
  /\ exists evs,
       log (snd (loop_body w s st)) = (log st ++ evs)%list
       /\ resolver_inputs evs = []
       /\ forall a, invocations a evs = 0.
Proof.
  intros Hv Hf.
  destruct (listen_speech_failed w s st Hv Hf) as [Hline [Hrem Hbrain]].
  destruct (silent_listen_for_command w s st) as [evs [L Q]].
  assert (E : loop_body w s st
              = (Returned Continue, snd (listen_for_command w s st))).
  { unfold loop_body, try_except, bind at 1.
    destruct (listen_for_command w s st) as [o st1]. simpl in Hline.
    subst o. reflexivity. }
  rewrite E. simpl fst. simpl snd.
  split; [reflexivity|]. split.
  - simpl. unfold bind at 1. rewrite E. reflexivity.
  - split; [exact Hrem|]. split; [exact Hbrain|].
    exists evs. split; [exact L|]. split.
    + apply quiet_resolver_inputs, Q.
    + intros a. apply quiet_invocations, Q.
Qed.

Lemma speech_failure_is_no_command_witness :
  VOICE_ENABLED voice_world = true
  /\ speech_failed (microphone (at_microphone UnknownValue)) = true
  /\ command_loop voice_world
       [at_microphone UnknownValue; at_microphone (Recognized "help")]
       (initial_state voice_world)
     = command_loop voice_world [at_microphone (Recognized "help")]
         (snd (loop_body voice_world (at_microphone UnknownValue)
                 (initial_state voice_world))).
Proof.
  split; [reflexivity|]. split; [reflexivity|].
  apply (speech_failure_is_no_command voice_world
           (at_microphone UnknownValue) [at_microphone (Recognized "help")]
           (initial_state voice_world));
    reflexivity.
Defined.

Lemma dispatch_exit_run w st :
  dispatch w "exit" st
  = (Returned Break,
     add_events st
       (Invoke "exit" [] :: spoken w shutdown_message
          ++ Invoke "exit" [] :: spoken w shutdown_message)%list).
Proof.
  erewrite dispatch_registered by reflexivity.
  change (action_of "exit") with "exit".
  unfold invoke_handler, call, returns_none, emit, bind, ret. simpl.
  repeat (rewrite edith_speak_run; simpl).
  f_equal. same_state.
Qed.

(** X4. On the text console the end of the input (or an interrupt while
    a line is read) is taken for the command [exit]: the shutdown message
    is spoken and the loop stops with the stimuli that follow unread. *)
Theorem end_of_input_ends_session
        (w : World) (s : Stimulus) (rest : list Stimulus) (st : State) :
  VOICE_ENABLED w = false ->
  keyboard s = EndOfInput ->
  fst (command_loop w (s :: rest) st) = Returned (Stopped rest)
  /\ printed (nl ++ "[E.D.I.T.H.]: " ++ shutdown_message)
       (events_since st (snd (command_loop w (s :: rest) st))) = true.
Proof.
  intros Hv Hk.
  assert (Hl : listen_for_command w s st
               = (Returned "exit",
                  add_events st [Input (nl ++ "[" ++ name USER_PROFILE ++ "] > ")])).
  { unfold listen_for_command. rewrite Hv, Hk. reflexivity. }
  assert (E : command_loop w (s :: rest) st
              = (Returned (Stopped rest),
                 add_events
                   (add_events st
                      [Input (nl ++ "[" ++ name USER_PROFILE ++ "] > ")])
                   (Invoke "exit" [] :: spoken w shutdown_message
                      ++ Invoke "exit" [] :: spoken w shutdown_message)%list)).
  { simpl command_loop. unfold bind at 1.
    rewrite (loop_body_dispatches w s st "exit" _ Hl eq_refl).
    unfold try_except. rewrite dispatch_exit_run. reflexivity. }
  rewrite E. split; [reflexivity|].
  erewrite events_since_app
    by (unfold add_events; simpl; rewrite <- ?app_assoc; reflexivity).
  unfold spoken, printed. destruct (tts_engine w); reflexivity.
Qed.

Lemma end_of_input_ends_session_witness :
  VOICE_ENABLED offline_world = false
  /\ keyboard (at_microphone WaitTimeout) = EndOfInput
  /\ fst (command_loop offline_world
            [at_microphone WaitTimeout; typed "help"] offline_start)
     = Returned (Stopped [typed "help"]).
Proof.
  split; [reflexivity|]. split; [reflexivity|].
  apply (end_of_input_ends_session offline_world (at_microphone WaitTimeout)
           [typed "help"] offline_start);
    reflexivity.
Defined.

(** ** The reminder store *)

Lemma add_events_nil_eq st : add_events st [] = st.
Proof. destruct st. unfold add_events. simpl. rewrite app_nil_r. reflexivity. Qed.

Lemma add_events_app st xs ys :
  add_events (add_events st xs) ys = add_events st (xs ++ ys)%list.
Proof. unfold add_events. simpl. rewrite <- app_assoc. reflexivity. Qed.



Lemma clear_reminders_run w st :
  clear_reminders w st
  = (Returned tt,
     add_events (snd (set_reminders [] st))
       (spoken w
          (match reminders st with
           | [] => "Task log is empty. No action required."
           | _ :: _ =>
               "All active tasks have been successfully purged from the log. Memory status: Clear."
           end))).
Proof.
  unfold clear_reminders, get_reminders, bind at 1.
  destruct (reminders st) as [|r rs] eqn:Hr.
  - rewrite edith_speak_run. f_equal.
    destruct st. simpl in *. subst. reflexivity.
  - unfold set_reminders, bind. rewrite edith_speak_run. reflexivity.
Qed.

(** X6. Whatever the store holds, after [clear_reminders] it is empty
    and a following [view_reminders] reports that no task is logged;
    clearing an empty store is answered differently from clearing a
    store with tasks. *)
Theorem clear_then_view_reports_nothing (w : World) (st : State) :
  reminders (snd (clear_reminders w st)) = []
  /\ reminders (snd (bind (clear_reminders w) (fun _ => view_reminders w) st)) = []
  /\ log (snd (bind (clear_reminders w) (fun _ => view_reminders w) st))
     = (log st
          ++ spoken w
               (match reminders st with
                | [] => "Task log is empty. No action required."
                | _ :: _ =>
                    "All active tasks have been successfully purged from the log. Memory status: Clear."
                end)
          ++ spoken w "No active tasks are currently logged in the memory matrix.")%list.
Proof.
  unfold bind. rewrite clear_reminders_run.
  split; [reflexivity|].
  unfold view_reminders, get_reminders, bind. simpl.
  rewrite edith_speak_run. split; [reflexivity|].
  unfold add_events. simpl. rewrite <- app_assoc. reflexivity.
Qed.

(** X7. [set_reminder] never raises and changes the store by at most
    one record, appended after the existing ones: either the store is
    unchanged and the missing-parameter message is spoken, or one record
    is appended whose task is not empty and has no surrounding
    whitespace, stamped with the clock reading, and its confirmation is
    spoken. *)
Theorem set_reminder_appends_at_most_one
        (w : World) (command_line : string) (st : State) :
  fst (set_reminder w command_line st) = Returned tt
  /\ ((reminders (snd (set_reminder w command_line st)) = reminders st
       /\ log (snd (set_reminder w command_line st))
          = (log st ++ spoken w missing_task_message)%list)
      \/ exists r,
           well_formed_task r
           /\ timestamp r = minute_stamp (now w (readings st))
           /\ reminders (snd (set_reminder w command_line st))
              = (reminders st ++ [r])%list
           /\ log (snd (set_reminder w command_line st))
              = (log st
                   ++ spoken w ("Task **'" ++ task r
                                  ++ "'** successfully logged at "
                                  ++ timestamp r
                                  ++ ". Priority set to standard."))%list).
Proof.
  unfold set_reminder.
  destruct (1 <? length (split1 "task" command_line))%nat;
    [|rewrite edith_speak_run; split; [reflexivity | left; split; reflexivity]].
  destruct (truthy (strip (nth 1 (split1 "task" command_line) ""))) eqn:Ht;
    [|rewrite edith_speak_run; split; [reflexivity | left; split; reflexivity]].
  unfold read_clock, take_reading, get_reminders, set_reminders, bind, ret.
  simpl. rewrite edith_speak_run. split; [reflexivity|].
  right.
  exists {| task := strip (nth 1 (split1 "task" command_line) "");
            timestamp := minute_stamp (now w (readings st)) |}.
  split; [split; [exact Ht | apply strip_idem]|].
  repeat split.
Qed.

(** ** Relations that every step of a session follows *)

Lemma open_website_state w url st :
  snd (open_website w url st)
  = add_events st
      (spoken w ("Executing web traversal to **" ++ url ++ "**.")
         ++ [BrowserOpen (url_of_target url)])%list.
Proof.
  unfold open_website, bind at 1. rewrite edith_speak_run.
  unfold browser_open, url_of_target, bind, emit, ret, raise. simpl.
  destruct (startswith url "http"); simpl;
    match goal with
    | |- context [webbrowser_open w ?u] => destruct (webbrowser_open w u)
    end; same_state.
Qed.

Create HintDb resp.

Section Disciplined.

Variable R : State -> State -> Prop.
Variable E : Event -> Prop.
Hypothesis D : Discipline R E.
Variable w : World.

Lemma resp_same A (c : M A) : (forall st, snd (c st) = st) -> respects R c.
Proof. intros H st. rewrite H. apply (d_refl _ _ D). Qed.

Lemma resp_ret A (a : A) : respects R (ret a).
Proof. apply resp_same. reflexivity. Qed.

Lemma resp_raise A e : respects R (@raise A e).
Proof. apply resp_same. reflexivity. Qed.

Lemma resp_lift A (o : Outcome A) : respects R (lift o).
Proof. apply resp_same. reflexivity. Qed.

Lemma resp_emit e : E e -> respects R (emit e).
Proof. intros He st. apply (d_emit _ _ D st e He). Qed.

Lemma resp_chat e : chat e -> respects R (emit e).
Proof. intros He. apply resp_emit, (d_chat _ _ D), He. Qed.

Lemma resp_events evs st : Forall E evs -> R st (add_events st evs).
Proof.
  intros H. revert st. induction H as [|e evs He _ IH]; intros st.
  - rewrite add_events_nil_eq. apply (d_refl _ _ D).
  - change (e :: evs) with ([e] ++ evs)%list. rewrite <- add_events_app.
    eapply (d_trans _ _ D); [apply (d_emit _ _ D st e He) | apply IH].
Qed.

Lemma spoken_admitted text : Forall E (spoken w text).
Proof.
  unfold spoken. destruct (tts_engine w);
    repeat constructor; apply (d_chat _ _ D); exact I.
Qed.

Lemma resp_bind A B (c : M A) (k : A -> M B) :
  respects R c -> (forall a, respects R (k a)) -> respects R (bind c k).
Proof.
  intros Hc Hk st. unfold bind. specialize (Hc st).
  destruct (c st) as [[a|e] st1]; simpl in *; [|exact Hc].
  eapply (d_trans _ _ D); [exact Hc | apply Hk].
Qed.

Lemma resp_try A (c : M A) (h : PyExc -> M A) :
  respects R c -> (forall e, respects R (h e)) -> respects R (try_except c h).
Proof.
  intros Hc Hh st. unfold try_except. specialize (Hc st).
  destruct (c st) as [[a|e] st1]; simpl in *; [exact Hc|].
  eapply (d_trans _ _ D); [exact Hc | apply Hh].
Qed.

Lemma resp_take_reading : respects R take_reading.
Proof. intros st. apply (d_reading _ _ D). Qed.

Lemma resp_set_history ids : respects R (set_chat_history_ids ids).
Proof. intros st. apply (d_history _ _ D). Qed.

Lemma resp_edith_speak text : respects R (edith_speak w text).
Proof.
  intros st. rewrite edith_speak_run. apply resp_events, spoken_admitted.
Qed.

Hint Resolve resp_ret resp_raise resp_lift resp_take_reading resp_set_history
  resp_edith_speak : resp.

Ltac resp_step :=
  first
    [ apply resp_bind; [|intros ?]
    | apply resp_try; [|intros ?]
    | apply resp_chat; exact I
    | solve [auto with resp]
    | frame_case
    | apply resp_same; intros; reflexivity ].

Lemma resp_think x : respects R (think x).
Proof. unfold think. repeat resp_step. Qed.

Hint Resolve resp_think : resp.

Lemma resp_edith_analyze x : respects R (edith_analyze w x).
Proof. unfold edith_analyze, print. repeat resp_step. Qed.

Lemma resp_read_clock : respects R (read_clock w).
Proof. unfold read_clock. repeat resp_step. Qed.

Hint Resolve resp_edith_analyze resp_read_clock : resp.

Lemma resp_print_reminders rs : forall i, respects R (print_reminders i rs).
Proof.
  induction rs as [|r rs IH]; intros i; simpl; [auto with resp|].
  unfold print. apply resp_bind; [apply resp_chat; exact I | intros _; apply IH].
Qed.

Hint Resolve resp_print_reminders : resp.

Lemma resp_view_reminders : respects R (view_reminders w).
Proof. unfold view_reminders. repeat resp_step. Qed.

Lemma resp_ai_text_generation : respects R (ai_text_generation w).
Proof. unfold ai_text_generation. repeat resp_step. Qed.

Lemma resp_tell_date_time : respects R (tell_date_time w).
Proof. unfold tell_date_time. repeat resp_step. Qed.

Lemma resp_display_help : respects R display_help.
Proof. unfold display_help, print. repeat resp_step. Qed.

(** With the key as it is configured, [get_weather] stops at its first
    test. *)
Lemma resp_get_weather x : respects R (get_weather w x).
Proof.
  unfold get_weather.
  change (String.eqb OPENWEATHERMAP_API_KEY "YOUR_OPENWEATHERMAP_API_KEY_HERE")
    with true.
  cbv iota. auto with resp.
Qed.

Lemma resp_listen_for_command s : respects R (listen_for_command w s).
Proof. unfold listen_for_command, print. repeat resp_step. Qed.

Lemma resp_set_reminder line :
  allows_append R -> respects R (set_reminder w line).
Proof.
  intros Happ st. unfold set_reminder.
  destruct (1 <? length (split1 "task" line))%nat; [|apply resp_edith_speak].
  destruct (truthy (strip (nth 1 (split1 "task" line) ""))) eqn:Ht;
    [|apply resp_edith_speak].
  unfold read_clock, get_reminders, bind, ret. simpl.
  eapply (d_trans _ _ D); [apply (d_reading _ _ D st)|].
  eapply (d_trans _ _ D); [|apply resp_edith_speak].
  apply (Happ (snd (take_reading st))
              {| task := strip (nth 1 (split1 "task" line) "");
                 timestamp := minute_stamp (now w (readings st)) |}).
  split; [exact Ht | apply strip_idem].
Qed.

Lemma resp_clear_reminders : allows_clear R -> respects R (clear_reminders w).
Proof.
  intros Hclear st. rewrite clear_reminders_run. simpl.
  eapply (d_trans _ _ D); [apply (Hclear st)|].
  apply resp_events, spoken_admitted.
Qed.

Lemma resp_open_target target :
  admits_opening w E -> respects R (open_target w target).
Proof.
  intros [Hurl Hcmd] st. unfold open_target.
  destruct (contains target ".").
  - rewrite open_website_state. apply resp_events.
    apply Forall_app. split; [apply spoken_admitted|].
    constructor; [apply Hurl | constructor].
  - rewrite open_application_run. cbn [snd]. apply resp_events.
    destruct (program_for w target) as [cmd|] eqn:Hp; [|apply spoken_admitted].
    apply Forall_app. split; [apply spoken_admitted|].
    constructor; [apply (Hcmd target cmd Hp) | apply spoken_admitted].
Qed.

Lemma resp_search_web query :
  admits_searching E -> respects R (search_web w query).
Proof.
  intros Hs. unfold search_web, browser_open.
  apply resp_bind; [apply resp_edith_speak | intros _].
  apply resp_bind; [apply resp_emit, Hs | intros _].
  destruct (webbrowser_open w _); auto with resp.
Qed.

(** *** Handlers *)

Lemma cr_raise e : computes_respecting R (raise e).
Proof. intros st. split; [apply (d_refl _ _ D) | exact I]. Qed.

Lemma cr_returns_none (c : M unit) :
  respects R c -> computes_respecting R (returns_none c).
Proof.
  intros Hc st. unfold returns_none, bind, ret. specialize (Hc st).
  destruct (c st) as [[u|e] st1]; simpl in *; split; auto; exact I.
Qed.

Lemma cr_coroutine (c : M unit) :
  respects R c -> computes_respecting R (coroutine_of c).
Proof.
  intros Hc st. split; [apply (d_refl _ _ D) | exact Hc].
Qed.

Lemma cr_bind A (c : M A) (k : A -> M PyVal) :
  respects R c -> (forall a, computes_respecting R (k a)) ->
  computes_respecting R (bind c k).
Proof.
  intros Hc Hk st. unfold bind. specialize (Hc st).
  destruct (c st) as [[a|e] st1]; simpl in *; [|split; [exact Hc | exact I]].
  destruct (Hk a st1) as [HR Hv]. split; [|exact Hv].
  eapply (d_trans _ _ D); [exact Hc | exact HR].
Qed.

Lemma handler_def0 fname body :
  respects R body -> handler_respects R (def0 fname body).
Proof.
  intros Hb args. destruct args; simpl;
    [apply (cr_returns_none _ Hb) | apply cr_raise].
Qed.

Lemma handler_def1 fname body :
  (forall x, respects R (body x)) -> handler_respects R (def1 fname body).
Proof.
  intros Hb args. destruct args as [|x [|y l]]; simpl;
    [apply cr_raise | apply (cr_returns_none _ (Hb x)) | apply cr_raise].
Qed.

Lemma handler_async_def1 fname body :
  (forall x, respects R (body x)) -> handler_respects R (async_def1 fname body).
Proof.
  intros Hb args. destruct args as [|x [|y l]]; simpl;
    [apply cr_raise | apply (cr_coroutine _ (Hb x)) | apply cr_raise].
Qed.

Lemma handler_lambda0 e :
  computes_respecting R e -> handler_respects R (lambda0 e).
Proof.
  intros He args. destruct args; simpl; [exact He | apply cr_raise].
Qed.

Lemma handler_lambda1 e :
  (forall x, computes_respecting R (e x)) -> handler_respects R (lambda1 e).
Proof.
  intros He args. destruct args as [|x [|y l]]; simpl;
    [apply cr_raise | apply He | apply cr_raise].
Qed.

Lemma cr_call a f args :
  handler_respects R f -> computes_respecting R (call a f args).
Proof.
  intros Hf. unfold call.
  apply cr_bind; [apply resp_chat; exact I | intros _; apply Hf].
Qed.

Lemma resp_await v : value_respects R v -> respects R (await v).
Proof. destruct v; simpl; [intros _; apply resp_raise | auto]. Qed.

Lemma resp_bind_value (e : M PyVal) B (k : PyVal -> M B) :
  computes_respecting R e ->
  (forall v, value_respects R v -> respects R (k v)) ->
  respects R (bind e k).
Proof.
  intros He Hk st. unfold bind. destruct (He st) as [HR Hv].
  destruct (e st) as [[v|x] st1]; simpl in *; [|exact HR].
  eapply (d_trans _ _ D); [exact HR | apply (Hk v Hv)].
Qed.

Lemma resp_invoke_handler a f arg :
  handler_respects R f -> respects R (invoke_handler a f arg).
Proof.
  intros Hf. unfold invoke_handler.
  assert (Hawait : forall args,
             respects R (bind (call a f args) (fun c => await c))).
  { intros args. apply resp_bind_value; [apply cr_call, Hf|].
    intros v Hv. apply resp_await, Hv. }
  assert (Hplain : forall args,
             respects R (bind (call a f args) (fun _ => ret tt))).
  { intros args. apply resp_bind_value; [apply cr_call, Hf|].
    intros v _. apply resp_ret. }
  assert (Hlambda : forall args,
             respects R
               (bind (call a f args)
                     (fun probe =>
                        if iscoroutine probe
                        then bind (call a f args) (fun c => await c)
                        else bind (call a f args) (fun _ => ret tt)))).
  { intros args. apply resp_bind_value; [apply cr_call, Hf|].
    intros v _. destruct (iscoroutine v); auto. }
  destruct (iscoroutinefunction f); [apply Hawait|].
  destruct (String.eqb (fn_name f) "<lambda>");
    destruct (0 <? co_argcount f)%nat; auto.
Qed.

End Disciplined.

(** Every handler of [COMMANDS] follows a discipline, given what the
    relation must allow for the handler at hand. *)
Lemma commands_respect R E w a f :
  Discipline R E ->
  dict_get (COMMANDS w) a = Some f ->
  (a = "set" -> allows_append R) ->
  (a = "clear" -> allows_clear R) ->
  (a = "open" -> admits_opening w E) ->
  (a = "search" -> admits_searching E) ->
  handler_respects R f.
Proof.
  intros D Hf Hset Hclear Hopen Hsearch.
  assert (Hin : In a command_names)
    by (apply (registered_name w); unfold registered; rewrite Hf; reflexivity).
  unfold command_names in Hin. simpl in Hin.
  repeat (destruct Hin as [Hin|Hin]); try contradiction; subst a;
    simpl in Hf; injection Hf as <-.
  - apply (handler_def0 R E D), (resp_display_help R E D).
  - apply (handler_def0 R E D), (resp_tell_date_time R E D).
  - apply (handler_lambda0 R E D), (cr_bind R E D).
    + apply (resp_take_reading R E D).
    + intros n. apply (cr_returns_none R), (resp_edith_speak R E D).
  - apply (handler_lambda1 R E D). intros x.
    destruct (String.eqb x "report").
    + apply (cr_returns_none R), (resp_ai_text_generation R E D).
    + apply (cr_coroutine R E D), (resp_edith_analyze R E D).
  - apply (handler_lambda1 R E D). intros x.
    destruct (String.eqb x "tasks").
    + apply (cr_returns_none R), (resp_view_reminders R E D).
    + apply (cr_coroutine R E D), (resp_edith_analyze R E D).
  - apply (handler_lambda1 R E D). intros x.
    destruct (String.eqb x "tasks").
    + apply (cr_returns_none R), (resp_clear_reminders R E D), Hclear.
      reflexivity.
    + apply (cr_coroutine R E D), (resp_edith_analyze R E D).
  - apply (handler_async_def1 R E D). intros x.
    apply (resp_edith_analyze R E D).
  - apply (handler_def1 R E D). intros x. apply (resp_get_weather R E D).
  - apply (handler_def1 R E D). intros x.
    apply (resp_search_web R E D), Hsearch. reflexivity.
  - apply (handler_def1 R E D). intros x.
    apply (resp_open_target R E D), Hopen. reflexivity.
  - apply (handler_lambda1 R E D). intros x.
    destruct (startswith x "task").
    + apply (cr_returns_none R), (resp_set_reminder R E D), Hset.
      reflexivity.
    + apply (cr_coroutine R E D), (resp_edith_analyze R E D).
  - apply (handler_lambda0 R E D), (cr_returns_none R),
      (resp_edith_speak R E D).
  - apply (handler_lambda0 R E D), (cr_returns_none R),
      (resp_edith_speak R E D).
  - apply (handler_lambda0 R E D), (cr_returns_none R),
      (resp_edith_speak R E D).
Qed.

Lemma resp_dispatch R E w line :
  Discipline R E ->
  (action_of line = "set" -> allows_append R) ->
  (action_of line = "clear" -> allows_clear R) ->
  (action_of line = "open" -> admits_opening w E) ->
  (action_of line = "search" -> admits_searching E) ->
  respects R (dispatch w line).
Proof.
  intros D Hset Hclear Hopen Hsearch.
  unfold dispatch. cbv zeta. fold (action_of line).
  destruct (dict_get (COMMANDS w) (action_of line)) as [f|] eqn:Hf.
  - apply (resp_bind R E D).
    + apply (resp_invoke_handler R E D).
      exact (commands_respect R E w (action_of line) f D Hf
               Hset Hclear Hopen Hsearch).
    + intros _.
      match goal with
      | |- context [if ?b then _ else _] => destruct b
      end; apply (resp_ret R E D).
  - apply (resp_bind R E D).
    + apply (resp_edith_analyze R E D).
    + intros _. apply (resp_ret R E D).
Qed.

Lemma resp_loop_body R E w s :
  Discipline R E ->
  allows_append R -> allows_clear R ->
  admits_opening w E -> admits_searching E ->
  respects R (loop_body w s).
Proof.
  intros D Hset Hclear Hopen Hsearch. unfold loop_body.
  apply (resp_try R E D).
  - apply (resp_bind R E D); [apply (resp_listen_for_command R E D)|].
    intros line. destruct (negb (truthy line)).
    + apply (resp_ret R E D).
    + apply (resp_dispatch R E w line D); auto.
  - intros e. unfold print.
    apply (resp_bind R E D); [apply (resp_chat R E D); exact I | intros _].
    apply (resp_bind R E D); [apply (resp_edith_speak R E D) | intros _].
    apply (resp_ret R E D).
Qed.

Lemma resp_command_loop R E w inputs :
  Discipline R E ->
  allows_append R -> allows_clear R ->
  admits_opening w E -> admits_searching E ->
  respects R (command_loop w inputs).
Proof.
  intros D Hset Hclear Hopen Hsearch.
  induction inputs as [|s rest IH]; simpl.
  - apply (resp_ret R E D).
  - apply (resp_bind R E D).
    + apply (resp_loop_body R E w s D); assumption.
    + intros [|]; [exact IH | apply (resp_ret R E D)].
Qed.

Lemma resp_start_edith_cli R E w inputs :
  Discipline R E ->
  allows_append R -> allows_clear R ->
  admits_opening w E -> admits_searching E ->
  respects R (start_edith_cli w inputs).
Proof.
  intros D Hset Hclear Hopen Hsearch. unfold start_edith_cli, greet_user.
  apply (resp_bind R E D).
  - apply (resp_bind R E D); [apply (resp_read_clock R E D) | intros t].
    apply (resp_edith_speak R E D).
  - intros _. apply (resp_command_loop R E w inputs D); assumption.
Qed.

(** ** What a session keeps *)

Lemma grows_by_discipline E :
  (forall e, chat e -> E e) -> Discipline (grows_by E) E.
Proof.
  intros Hchat. constructor.
  - intros st. exists []. rewrite app_nil_r. auto.
  - intros a b c [e1 [H1 Q1]] [e2 [H2 Q2]].
    exists (e1 ++ e2)%list. rewrite H2, H1, app_assoc.
    split; [reflexivity | apply Forall_app; auto].
  - exact Hchat.
  - intros st e He. exists [e]. split; [reflexivity | auto].
  - intros st. exists []. simpl. rewrite app_nil_r. auto.
  - intros st ids. exists []. simpl. rewrite app_nil_r. auto.
Qed.

Lemma same_store_discipline :
  Discipline (fun a b => reminders b = reminders a) (fun _ => True).
Proof.
  constructor; auto.
  intros a b c H1 H2. rewrite H2. exact H1.
Qed.

Lemma well_formed_store_discipline :
  Discipline (fun a b => Forall well_formed_task (reminders a) ->
                         Forall well_formed_task (reminders b))
             (fun _ => True).
Proof. constructor; auto. Qed.

Lemma capability_discipline :
  Discipline (fun a b => capability (edith_brain b) = capability (edith_brain a))
             (fun _ => True).
Proof.
  constructor; auto.
  intros a b c H1 H2. rewrite H2. exact H1.
Qed.

Lemma anything_admits_opening w : admits_opening w (fun _ => True).
Proof. split; auto. Qed.

Lemma anything_admits_searching : admits_searching (fun _ => True).
Proof. intros q. exact I. Qed.

(** X8. The reminder store is changed only by lines whose first token
    is [set] or [clear]: the dispatch of any other line, registered or
    not, whatever its handler or the resolver does, leaves the store as
    it was. *)
Theorem store_changes_only_by_set_and_clear
        (w : World) (line : string) (st : State) :
  action_of line <> "set" ->
  action_of line <> "clear" ->
  reminders (snd (dispatch w line st)) = reminders st.
Proof.
  intros Hset Hclear.
  apply (resp_dispatch _ _ w line same_store_discipline).
  - intros H. contradiction.
  - intros H. contradiction.
  - intros _. apply anything_admits_opening.
  - intros _. apply anything_admits_searching.
Qed.

Lemma store_changes_only_by_set_and_clear_witness :
  action_of "generate report" <> "set"
  /\ action_of "generate report" <> "clear"
  /\ reminders (snd (dispatch offline_world "generate report" offline_start))
     = reminders offline_start.
Proof.
  split; [discriminate|]. split; [discriminate|].
  apply (store_changes_only_by_set_and_clear offline_world "generate report"
           offline_start); discriminate.
Defined.

(** X9. Every task in the store is not empty and has no surrounding
    whitespace, and a whole session keeps it so, whatever is typed or
    said. *)
Theorem stored_tasks_stay_well_formed
        (w : World) (inputs : list Stimulus) (st : State) :
  Forall well_formed_task (reminders st) ->
  Forall well_formed_task (reminders (snd (start_edith_cli w inputs st))).
Proof.
  apply (resp_start_edith_cli _ _ w inputs well_formed_store_discipline).
  - intros s r Hr Hall. simpl. apply Forall_app. split; [exact Hall|].
    constructor; [exact Hr | constructor].
  - intros s _. constructor.
  - apply anything_admits_opening.
  - apply anything_admits_searching.
Qed.

Lemma stored_tasks_stay_well_formed_witness :
  Forall well_formed_task (reminders offline_start)
  /\ Forall well_formed_task
       (reminders
          (snd (start_edith_cli offline_world
                  [typed "set task   Buy Milk  "; typed "set task"]
                  offline_start))).
Proof.
  split; [constructor|].
  apply (stored_tasks_stay_well_formed offline_world
           [typed "set task   Buy Milk  "; typed "set task"] offline_start).
  constructor.
Defined.

(** X10. A session never replaces the device, the tokenizer or the
    model of the brain: a brain that was ready stays ready and one that
    failed to load stays offline until the process ends. *)
Theorem brain_capability_is_fixed
        (w : World) (inputs : list Stimulus) (st : State) :
  capability (edith_brain (snd (start_edith_cli w inputs st)))
  = capability (edith_brain st)
  /\ is_ready (edith_brain (snd (start_edith_cli w inputs st)))
     = is_ready (edith_brain st).
Proof.
  assert (H : capability (edith_brain (snd (start_edith_cli w inputs st)))
              = capability (edith_brain st)).
  { apply (resp_start_edith_cli _ _ w inputs capability_discipline).
    - intros s r _. reflexivity.
    - intros s. reflexivity.
    - apply anything_admits_opening.
    - apply anything_admits_searching. }
  split; [exact H|].
  unfold capability in H. unfold is_ready.
  injection H as _ Ht Hm. rewrite Ht, Hm. reflexivity.
Qed.



Lemma indoor_event_chat e : chat e -> indoor_event e.
Proof. destruct e; simpl; auto. Qed.

(** X12. Only the lines whose first token is [open] or [search] reach
    outside the conversation: the dispatch of any other line opens no
    browser, launches no process and sends no HTTP request. *)
Theorem only_open_and_search_reach_outside
        (w : World) (line : string) (st : State) :
  action_of line <> "open" ->
  action_of line <> "search" ->
  grows_by indoor_event st (snd (dispatch w line st)).
Proof.
  intros Hopen Hsearch.
  apply (resp_dispatch _ _ w line (grows_by_discipline _ indoor_event_chat)).
  - intros _ s r _. exists []. simpl. rewrite app_nil_r. auto.
  - intros _ s. exists []. simpl. rewrite app_nil_r. auto.
  - intros H. contradiction.
  - intros H. contradiction.
Qed.

Lemma only_open_and_search_reach_outside_witness :
  action_of "weather new york" <> "open"
  /\ action_of "weather new york" <> "search"
  /\ grows_by indoor_event offline_start
       (snd (dispatch offline_world "weather new york" offline_start)).
Proof.
  split; [discriminate|]. split; [discriminate|].
  apply (only_open_and_search_reach_outside offline_world "weather new york"
           offline_start); discriminate.
Defined.

(** ** The loop as a whole *)



Lemma split1_join a q :
  contains a " " = false -> split1 " " (a ++ " " ++ q) = [a; q].
Proof.
  induction a as [|c a IH]; intros H.
  - simpl append. rewrite split1_cons, startswith_char. reflexivity.
  - rewrite contains_cons, startswith_char in H.
    apply orb_false_elim in H. destruct H as [Hc Ha].
    change (String c a ++ " " ++ q) with (String c (a ++ " " ++ q)).
    rewrite split1_cons, startswith_char, Hc, (IH Ha). reflexivity.
Qed.

Lemma search_line_parts query :
  action_of ("search " ++ query) = "search"
  /\ argument_of ("search " ++ query) = query.
Proof.
  unfold action_of, argument_of.
  change ("search " ++ query) with ("search" ++ " " ++ query).
  rewrite (split1_join "search" query eq_refl). split; reflexivity.
Qed.

Lemma search_web_fails w query e st :
  webbrowser_open w (search_url query) = Some e ->
  search_web w query st
  = (Raised e,
     add_events st
       (spoken w ("Querying global information network for: **" ++ query ++ "**.")
          ++ [BrowserOpen (search_url query)])%list).
Proof.
  intros H. unfold search_web. fold (search_url query).
  unfold bind at 1. rewrite edith_speak_run.
  unfold browser_open, bind, emit, raise. cbv beta iota.
  rewrite H. f_equal. same_state.
Qed.

(** X14. An exception that a handler lets through ends the session:
    when the browser raises [e] for the URL of a [search] line, the turn
    prints the unhandled error with [str(e)], speaks the critical-failure
    message and breaks the loop, and the stimuli that follow stay
    unread. *)
Theorem browser_failure_stops_loop
        (w : World) (s : Stimulus) (rest : list Stimulus)
        (st st1 : State) (query : string) (e : PyExc) :
  listen_for_command w s st = (Returned ("search " ++ query), st1) ->
  webbrowser_open w (search_url query) = Some e ->
  command_loop w (s :: rest) st
  = (Returned (Stopped rest),
     add_events st1
       (Invoke "search" [query]
          :: spoken w ("Querying global information network for: **"
                         ++ query ++ "**.")
          ++ [BrowserOpen (search_url query);
              Print ("An unhandled critical error occurred: " ++ exc_str e)]
          ++ spoken w "Critical system failure. Contact support.")%list).
Proof.
  intros Hl Hb.
  destruct (search_line_parts query) as [Ha Harg].
  simpl command_loop. unfold bind at 1.
  rewrite (loop_body_dispatches w s st ("search " ++ query) st1 Hl eq_refl).
  unfold try_except.
  erewrite dispatch_registered by (rewrite Ha; reflexivity).
  rewrite Ha, Harg.
  unfold invoke_handler.
  cbn [iscoroutinefunction def1 fn_name co_argcount String.eqb Ascii.eqb
       Bool.eqb Nat.ltb Nat.leb].
  unfold call, bind, emit. cbn [py_call def1 fst snd].
  unfold bind. rewrite (search_web_fails w query e _ Hb).
  unfold print, emit, bind, ret. rewrite edith_speak_run.
  f_equal. unfold add_events. cbn [log reminders edith_brain readings].
  rewrite <- ?app_assoc. reflexivity.
Qed.

Lemma browser_failure_stops_loop_witness :
  listen_for_command browserless_world (typed "Search rocq prover")
    (initial_state browserless_world)
  = (Returned ("search " ++ "rocq prover"),
     heard browserless_world (typed "Search rocq prover")
           (initial_state browserless_world))
  /\ webbrowser_open browserless_world (search_url "rocq prover")
     = Some (mkExc "Error" "could not locate runnable browser")
  /\ fst (command_loop browserless_world
            [typed "Search rocq prover"; typed "help"]
            (initial_state browserless_world))
     = Returned (Stopped [typed "help"]).
Proof.
  split; [reflexivity|]. split; [reflexivity|].
  rewrite (browser_failure_stops_loop browserless_world
             (typed "Search rocq prover") [typed "help"]
             (initial_state browserless_world)
             (heard browserless_world (typed "Search rocq prover")
                    (initial_state browserless_world))
             "rocq prover"
             (mkExc "Error" "could not locate runnable browser")
             eq_refl eq_refl).
  reflexivity.
Defined.

(** ** The brain *)


(** X16. The conversation is threaded through the generations: once a
    generation has returned [ids], the history is [ids], and the next
    generation is called on [ids] followed by the encoding of the new
    utterance. *)
Theorem history_threads_through_generations
        (st : State) (x y : string) (tok : Tokenizer) (mdl : CausalLM)
        (ids new_ids : list Z) :
  tokenizer (edith_brain st) = Some tok ->
  model (edith_brain st) = Some mdl ->
  generate_call st x = Some (Returned ids) ->
  encode tok (y ++ eos_token tok) = Returned new_ids ->
  chat_history_ids (edith_brain (snd (think x st))) = Some ids
  /\ generate_call (snd (think x st)) y
     = Some (generate mdl (ids ++ new_ids)%list).
Proof.
  intros Ht Hm Hg He.
  unfold generate_call in Hg. rewrite Ht, Hm in Hg.
  unfold generate_call, think, bind, emit, get_brain, lift, ret,
    set_chat_history_ids. simpl. rewrite Ht, Hm.
  destruct (encode tok (x ++ eos_token tok)) as [xs|]; [|discriminate Hg].
  injection Hg as Hg. simpl. rewrite Hg. simpl.
  match goal with
  | |- context [decode tok ?t] => destruct (decode tok t)
  end; simpl; rewrite Ht, Hm, He; split; reflexivity.
Qed.

Lemma history_threads_through_generations_witness :
  tokenizer (edith_brain (initial_state (loaded_world echo_model)))
  = Some toy_tokenizer
  /\ model (edith_brain (initial_state (loaded_world echo_model)))
     = Some echo_model
  /\ generate_call (initial_state (loaded_world echo_model)) "hello"
     = Some (Returned [18%Z; 7%Z])
  /\ encode toy_tokenizer ("again" ++ eos_token toy_tokenizer)
     = Returned [18%Z]
  /\ generate_call
       (snd (think "hello" (initial_state (loaded_world echo_model)))) "again"
     = Some (Returned [18%Z; 7%Z; 18%Z; 7%Z]).
Proof.
  split; [reflexivity|]. split; [reflexivity|]. split; [reflexivity|].
  split; [reflexivity|].
  rewrite (proj2 (history_threads_through_generations
                    (initial_state (loaded_world echo_model)) "hello" "again"
                    toy_tokenizer echo_model [18%Z; 7%Z] [18%Z]
                    eq_refl eq_refl eq_refl eq_refl)).
  reflexivity.
Defined.

Lemma generations_app xs ys :
  generations (xs ++ ys) = generations xs + generations ys.
Proof.
  induction xs as [|e xs IH]; simpl; [reflexivity|].
  destruct e; auto. rewrite IH. reflexivity.
Qed.

Lemma generations_spoken w text : generations (spoken w text) = 0.
Proof. unfold spoken. destruct (tts_engine w); reflexivity. Qed.

Opaque edith_speak.

(** X19. One run of the resolver calls [model.generate] at most once,
    and exactly once when no rule matches, the brain is ready and the
    utterance could be encoded; a canned reply, an offline brain or a
    failed encoding cost no generation. *)
Theorem resolver_generates_at_most_once
        (w : World) (x : string) (st : State) :
  exists evs,
    log (snd (edith_analyze w x st)) = (log st ++ evs)%list
    /\ generations evs
       = match first_match RULES (lower x), generate_call st x with
         | None, Some _ => 1
         | _, _ => 0
         end.
Proof.
  destruct (first_match RULES (lower x)) as [reply|] eqn:Hm.
  - rewrite (edith_analyze_canned w x st reply Hm).
    exists (Analyze x :: spoken w reply). split; [reflexivity|].
    simpl. apply generations_spoken.
  - rewrite (edith_analyze_fallback w x st Hm).
    unfold generate_call, think, try_except, bind, emit, get_brain, lift,
      ret, set_chat_history_ids, print. simpl.
    repeat (match goal with
            | |- context [match ?t with _ => _ end] =>
                lazymatch t with
                | tokenizer _ => destruct t
                | model _ => destruct t
                | encode _ _ => destruct t
                | generate _ _ => destruct t
                | decode _ _ => destruct t
                end
            end; simpl);
      rewrite edith_speak_run; simpl;
      eexists; (split; [rewrite <- ?app_assoc; reflexivity|]);
      simpl; rewrite ?generations_app, ?generations_spoken;
      try reflexivity; destruct (tts_engine w); reflexivity.
Qed.

Transparent edith_speak.

(** ** Lines that end in the resolver *)

Lemma line_of_parts line :
  action_of line ++ " " ++ argument_of line
  = if contains line " " then line else line ++ " ".
Proof.
  unfold action_of, argument_of.
  destruct (split1_shape " " line) as [[Hc Hp]|[Hc [a [b [Hp He]]]]];
    rewrite Hc, Hp; simpl; [reflexivity | symmetry; exact He].
Qed.

Lemma twice_invoked st a args :
  add_events (add_events st [Invoke a args]) [Invoke a args]
  = add_events st [Invoke a args; Invoke a args].
Proof. apply add_events_app. Qed.

(** The dispatch of a line whose lambda answers with a coroutine: the
    coroutine runs once, after the two calls of the lambda. *)
Lemma dispatch_lambda_coroutine w line f c st :
  dict_get (COMMANDS w) (action_of line) = Some f ->
  fn_name f = "<lambda>" ->
  iscoroutinefunction f = false ->
  co_argcount f = 1 ->
  py_call f [argument_of line] = coroutine_of c ->
  str_in (action_of line) ["exit"; "quit"; "shutdown"] = false ->
  dispatch w line st
  = bind c (fun _ => ret Continue)
      (add_events st [Invoke (action_of line) [argument_of line];
                      Invoke (action_of line) [argument_of line]]).
Proof.
  intros Hf Hn Hc Hargs Hcall Hterm.
  rewrite (dispatch_registered w line Hf). rewrite Hterm.
  unfold invoke_handler. rewrite Hc, Hn, Hargs.
  cbn [String.eqb Ascii.eqb Bool.eqb Nat.ltb Nat.leb].
  unfold call. rewrite Hcall.
  unfold coroutine_of, bind, emit, ret, iscoroutine, await.
  cbv beta iota. cbn [fst snd].
  rewrite <- twice_invoked. reflexivity.
Qed.

Lemma resolver_after_two_calls w x a args st :
  fst (bind (edith_analyze w x) (fun _ => ret Continue)
         (add_events st [Invoke a args; Invoke a args]))
  = Returned Continue
  /\ reminders (snd (bind (edith_analyze w x) (fun _ => ret Continue)
                       (add_events st [Invoke a args; Invoke a args])))
     = reminders st
  /\ exists evs,
       log (snd (bind (edith_analyze w x) (fun _ => ret Continue)
                   (add_events st [Invoke a args; Invoke a args])))
       = (log st ++ evs)%list
       /\ resolver_inputs evs = [x].
Proof.
  set (st2 := add_events st _).
  destruct (returns_edith_analyze w x st2) as [u Hu].
  pose proof (keeps_edith_analyze w x st2) as Hk.
  destruct (edith_analyze_log w x st2) as [evs [L Q]].
  unfold bind, ret.
  destruct (edith_analyze w x st2) as [[u'|e] st3]; simpl in *;
    [|discriminate].
  split; [reflexivity|]. split; [exact Hk|].
  exists (Invoke a args :: Invoke a args :: Analyze x :: evs)%list. split.
  - rewrite L, <- app_assoc. reflexivity.
  - simpl. rewrite (quiet_resolver_inputs Q). reflexivity.
Qed.

(** X17. A [generate], [view], [clear] or [set] line whose second word
    is not the expected one is answered by the resolver: the store is
    unchanged, the loop goes on, and the resolver runs once, on the
    action, a space and the argument, which is the line itself when the
    line holds a space and the line followed by a space when the command
    stands alone. *)
Theorem two_word_commands_fall_back
        (w : World) (line : string) (st : State) :
  falls_back line = true ->
  fst (dispatch w line st) = Returned Continue
  /\ reminders (snd (dispatch w line st)) = reminders st
  /\ exists evs,
       log (snd (dispatch w line st)) = (log st ++ evs)%list
       /\ resolver_inputs evs
          = [if contains line " " then line else line ++ " "].
Proof.
  unfold falls_back. intros H.
  rewrite <- (line_of_parts line).
  destruct (String.eqb_spec (action_of line) "generate") as [Ha|_];
    [|destruct (String.eqb_spec (action_of line) "view") as [Ha|_];
      [|destruct (String.eqb_spec (action_of line) "clear") as [Ha|_];
        [|destruct (String.eqb_spec (action_of line) "set") as [Ha|_];
          [|discriminate H]]]];
    apply negb_true_iff in H;
    (erewrite dispatch_lambda_coroutine;
     [ rewrite Ha; apply resolver_after_two_calls
     | rewrite Ha; reflexivity
     | reflexivity | reflexivity | reflexivity
     | simpl; rewrite H; reflexivity
     | rewrite Ha; reflexivity ]).
Qed.

Lemma two_word_commands_fall_back_witness :
  falls_back "view" = true
  /\ exists evs,
       log (snd (dispatch offline_world "view" offline_start))
       = (log offline_start ++ evs)%list
       /\ resolver_inputs evs = ["view "].
Proof.
  split; [reflexivity|].
  apply (two_word_commands_fall_back offline_world "view" offline_start).
  reflexivity.
Defined.

(** X18. An [analyze] line runs the resolver once, on the argument
    alone, with a single call of the handler; the bare line ["analyze"]
    runs it on the empty text. *)
Theorem analyze_passes_only_its_argument
        (w : World) (line : string) (st : State) :
  action_of line = "analyze" ->
  dispatch w line st
  = (Returned Continue,
     snd (edith_analyze w (argument_of line)
            (add_events st [Invoke "analyze" [argument_of line]])))
  /\ exists evs,
       log (snd (dispatch w line st)) = (log st ++ evs)%list
       /\ resolver_inputs evs = [argument_of line]
       /\ invocations "analyze" evs = 1.
Proof.
  intros Ha.
  assert (E : dispatch w line st
              = (Returned Continue,
                 snd (edith_analyze w (argument_of line)
                        (add_events st [Invoke "analyze" [argument_of line]])))).
  { erewrite dispatch_registered by (rewrite Ha; reflexivity).
    rewrite Ha. unfold invoke_handler.
    cbn [iscoroutinefunction async_def1].
    unfold call, bind, emit, ret, await. cbn [py_call async_def1 fst snd].
    unfold ret. cbv beta iota.
    change (str_in "analyze" ["exit"; "quit"; "shutdown"]) with false.
    cbv beta iota. unfold add_events.
    match goal with
    | |- context [edith_analyze w (argument_of line) ?s] =>
        destruct (returns_edith_analyze w (argument_of line) s) as [u Hu];
        destruct (edith_analyze w (argument_of line) s) as [[u'|e] st3]
    end; simpl in *; [reflexivity | discriminate]. }
  split; [exact E|]. rewrite E. cbn [snd].
  destruct (edith_analyze_log w (argument_of line)
              (add_events st [Invoke "analyze" [argument_of line]]))
    as [evs [L Q]].
  exists (Invoke "analyze" [argument_of line]
            :: Analyze (argument_of line) :: evs)%list.
  split; [rewrite L; simpl; rewrite <- app_assoc; reflexivity|].
  split; simpl.
  - rewrite (quiet_resolver_inputs Q). reflexivity.
  - rewrite (quiet_invocations "analyze" Q). reflexivity.
Qed.

Lemma analyze_passes_only_its_argument_witness :
  action_of "analyze" = "analyze"
  /\ exists evs,
       log (snd (dispatch offline_world "analyze" offline_start))
       = (log offline_start ++ evs)%list
       /\ resolver_inputs evs = [""]
       /\ invocations "analyze" evs = 1.
Proof.
  split; [reflexivity|].
  apply (analyze_passes_only_its_argument offline_world "analyze"
           offline_start).
  reflexivity.
Defined.
